(** * TempLog serial reader: the line parser and the sample store

    A shallow embedding of [TempLogSerialReader] from
    [TempLogPlot/templogplot.py]: the record pattern compiled in [read],
    the conversions applied to its groups, and the four methods
    [reset_data], [open], [close] and [read] acting on the reader object.

    The program is Python 2 code: a line returned by [readline] is a byte
    string, modelled as [string]; [\d] in a byte pattern is [0-9]. *)

From Stdlib Require Import Bool Ascii String List ZArith QArith Lia.
Import ListNotations.

Local Open Scope string_scope.
Local Open Scope Z_scope.

(** ** Byte strings *)

Definition LF : string := String (ascii_of_nat 10) EmptyString.

(** [\d] of a byte pattern: the ten ASCII digits. *)
Definition is_digit (c : ascii) : bool :=
  ((48 <=? nat_of_ascii c) && (nat_of_ascii c <=? 57))%nat.

(** [[\d\.]]: a digit or a full stop. *)
Definition is_digit_or_dot (c : ascii) : bool :=
  is_digit c || Ascii.eqb c ".".

Fixpoint all_chars (p : ascii -> bool) (s : string) : bool :=
  match s with
  | EmptyString => true
  | String c s' => p c && all_chars p s'
  end.

(** The head of [s], if any, is not in the class [p]. *)
Definition stops (p : ascii -> bool) (s : string) : bool :=
  match s with
  | EmptyString => true
  | String c _ => negb (p c)
  end.

Definition nonempty (s : string) : bool :=
  match s with
  | EmptyString => false
  | String _ _ => true
  end.

(** A non-empty text over the class [p]: what [p+] matches in full. *)
Definition run (p : ascii -> bool) (s : string) : bool :=
  nonempty s && all_chars p s.

(** The longest prefix of [s] made of characters of the class [p], and
    what follows it. *)
Fixpoint span (p : ascii -> bool) (s : string) : string * string :=
  match s with
  | EmptyString => (EmptyString, EmptyString)
  | String c s' =>
      if p c then let (a, b) := span p s' in (String c a, b)
      else (EmptyString, s)
  end.

(** The text between two positions of a scan: the prefix of [s] that was
    consumed when [rest] is what remains. *)
Definition consumed (s rest : string) : string :=
  substring 0 (String.length s - String.length rest) s.

(** ** The pattern language of [re], as far as [read] uses it *)

Module Re.

(** A match object's [groupdict()]: group name to matched text, the most
    recently closed group first. *)
Definition groupdict := list (string * string).

Fixpoint lookup (name : string) (g : groupdict) : option string :=
  match g with
  | [] => None
  | (n, v) :: g' => if String.eqb name n then Some v else lookup name g'
  end.

Inductive pattern : Type :=
| Lit (c : ascii)                  (* one literal character *)
| Class (p : ascii -> bool)        (* one character of a class *)
| Plus (p : ascii -> bool)         (* [c+]: one or more, greedy *)
| Cat (r1 r2 : pattern)              (* concatenation *)
| Group (name : string) (r : pattern). (* [(?P<name>r)] *)

(** Greedy repetition with backtracking: take as many characters of the
    class as there are, and give one back at a time while the rest of the
    pattern, [k], fails. *)
Fixpoint plus_class {A : Type} (p : ascii -> bool)
    (k : string -> option A) (s : string) : option A :=
  match s with
  | EmptyString => None
  | String c s' =>
      if p c then
        match plus_class p k s' with
        | Some r => Some r
        | None => k s'
        end
      else None
  end.

(** The backtracking matcher, in continuation-passing style: [k] is the
    rest of the pattern, applied to the remaining input and the groups
    closed so far. *)
Fixpoint rmatch (r : pattern) (s : string) (g : groupdict)
    (k : string -> groupdict -> option groupdict) : option groupdict :=
  match r with
  | Lit c =>
      match s with
      | String c' s' => if Ascii.eqb c c' then k s' g else None
      | EmptyString => None
      end
  | Class p =>
      match s with
      | String c' s' => if p c' then k s' g else None
      | EmptyString => None
      end
  | Plus p => plus_class p (fun s' => k s' g) s
  | Cat r1 r2 => rmatch r1 s g (fun s' g' => rmatch r2 s' g' k)
  | Group name r1 =>
      rmatch r1 s g (fun s' g' => k s' ((name, consumed s s') :: g'))
  end.

(** [regex.match(data)]: the pattern must match at the start of [data];
    what follows the match is not looked at. *)
Definition re_match (r : pattern) (data : string) : option groupdict :=
  rmatch r data [] (fun _ g => Some g).

End Re.

Import Re.

Declare Scope pattern_scope.
Delimit Scope pattern_scope with pat.
Bind Scope pattern_scope with pattern.
Notation "r1 ;; r2" := (Cat r1 r2)
  (at level 61, right associativity) : pattern_scope.

(** The pattern compiled in [read]:
<<
   (?P<id>\d+),(?P<year>\d+)-(?P<month>\d+)-(?P<day>\d+),
   (?P<hour>\d+):(?P<minute>\d+):(?P<second>\d+),
   (?P<int_temp>[\d\.]+),(?P<ext_temp>[\d]+\.\d\d)
>> *)
Definition regex : pattern :=
  (Group "id" (Plus is_digit) ;; Lit "," ;;
   Group "year" (Plus is_digit) ;; Lit "-" ;;
   Group "month" (Plus is_digit) ;; Lit "-" ;;
   Group "day" (Plus is_digit) ;; Lit "," ;;
   Group "hour" (Plus is_digit) ;; Lit ":" ;;
   Group "minute" (Plus is_digit) ;; Lit ":" ;;
   Group "second" (Plus is_digit) ;; Lit "," ;;
   Group "int_temp" (Plus is_digit_or_dot) ;; Lit "," ;;
   Group "ext_temp"
     (Plus is_digit ;; Lit "." ;; Class is_digit ;; Class is_digit))%pat.

(** ** Exceptions and the built-in conversions *)

Inductive exn : Type :=
| ValueError
| OverflowError
| KeyError
| SerialException
| RuntimeError.

(** [groups[name]] *)
Definition getitem (g : groupdict) (name : string) : exn + string :=
  match lookup name g with
  | Some v => inr v
  | None => inl KeyError
  end.

Definition digit_val (c : ascii) : Z := Z.of_nat (nat_of_ascii c) - 48.

Fixpoint digits_value (acc : Z) (s : string) : Z :=
  match s with
  | EmptyString => acc
  | String c s' => digits_value (10 * acc + digit_val c) s'
  end.

(** [int(s)] on the texts a [\d+] group can hold: a non-empty run of
    digits is read in base ten (leading zeros allowed, no bound on the
    size), anything else is a [ValueError]. *)
Definition int (s : string) : exn + Z :=
  if nonempty s && all_chars is_digit s then inr (digits_value 0 s)
  else inl ValueError.

(** The decimal number written by a text over digits and full stops, as
    [float] reads it: digits, optionally a full stop and more digits, with
    at least one digit in all ("7", "7.", ".5" and "7.25" are numbers; "."
    and "1.2.3" are not, nor is the empty text). The value is exact and in lowest terms. *)
Definition decimal_value (s : string) : option Q :=
  let (a, rest) := span is_digit s in
  match rest with
  | EmptyString =>
      if nonempty a then Some (Qred (digits_value 0 a # 1)) else None
  | String c b =>
      if Ascii.eqb c "." && all_chars is_digit b && nonempty (a ++ b)
      then Some (Qred (digits_value 0 (a ++ b)
                       # Z.to_pos (10 ^ Z.of_nat (String.length b))))
      else None
  end.

(** ** [datetime.datetime] *)

Record datetime : Type := mkdatetime {
  year : Z; month : Z; day : Z; hour : Z; minute : Z; second : Z
}.

Definition is_leap (y : Z) : bool :=
  (y mod 4 =? 0) && (negb (y mod 100 =? 0) || (y mod 400 =? 0)).

Definition days_in_month (y m : Z) : Z :=
  if m =? 2 then (if is_leap y then 29 else 28)
  else if (m =? 4) || (m =? 6) || (m =? 9) || (m =? 11) then 30
  else 31.

Definition MINYEAR : Z := 1.
Definition MAXYEAR : Z := 9999.
Definition INT_MAX : Z := 2147483647.

Definition valid_date (y m d : Z) : bool :=
  (MINYEAR <=? y) && (y <=? MAXYEAR) && (1 <=? m) && (m <=? 12)
  && (1 <=? d) && (d <=? days_in_month y m).

Definition valid_time (h mi s : Z) : bool :=
  (0 <=? h) && (h <=? 23) && (0 <=? mi) && (mi <=? 59)
  && (0 <=? s) && (s <=? 59).

(** The constructor [datetime(year=, month=, day=, hour=, minute=,
    second=)]. Its arguments are converted to C ints first, which is an
    [OverflowError] for a value above [INT_MAX]; the date and then the
    time are range-checked, a [ValueError] each. *)
Definition new_datetime (y m d h mi s : Z) : exn + datetime :=
  if existsb (fun v => INT_MAX <? v) [y; m; d; h; mi; s]
  then inl OverflowError
  else if valid_date y m d && valid_time h mi s
  then inr (mkdatetime y m d h mi s)
  else inl ValueError.

(** ** The serial port object of pyserial, as far as the reader uses it *)

Module Serial.

Record port : Type := mkport {
  portstr : string;
  baudrate : Z;
  is_open : bool
}.

(** [flush()] waits for the output to drain; on a port that is not open
    it raises [portNotOpenError], a [SerialException]. *)
Definition flush (p : port) : exn + unit :=
  if is_open p then inr tt else inl SerialException.

(** [close()] does nothing to a port that is already closed. *)
Definition close (p : port) : port :=
  mkport (portstr p) (baudrate p) false.

End Serial.

Import Serial.

(** ** The reader object and its methods *)

(** What the program takes from outside. [number] is the type of Python
    floats; [to_float q] is the float nearest to the exact decimal [q],
    the value [float(text)] returns; [date2num] is matplotlib's conversion
    of a [datetime] to a number of days; [connect name baud_rate] is the
    failure, if any, with which [serial.Serial(name, baud_rate, timeout=0)]
    ends ([ValueError] for a baud rate out of range, [SerialException] for
    a device that cannot be opened or configured). *)
Class Platform : Type := {
  number : Type;
  to_float : Q -> number;
  date2num : datetime -> number;
  connect : string -> Z -> option exn
}.

Section Reader.

Context {platform : Platform}.

(** [float(s)] on the texts a group over digits and full stops can hold. *)
Definition float (s : string) : exn + number :=
  match decimal_value s with
  | Some q => inr (to_float q)
  | None => inl ValueError
  end.

(** [serial.Serial(name, baud_rate, timeout=0)]: a new port object, open,
    unless the constructor raises. *)
Definition new_Serial (name : string) (baud_rate : Z) : exn + port :=
  match connect name baud_rate with
  | Some e => inl e
  | None => inr (mkport name baud_rate true)
  end.

(** The attributes of a [TempLogSerialReader]. *)
Record reader : Type := mkreader {
  _serial : option port;
  time : list number;
  int_temp : list number;
  ext_temp : list number
}.

(** A method body runs on the object and either returns or raises; what
    it assigned before raising stays assigned. *)
Definition M (A : Type) : Type := reader -> (exn + A) * reader.

Definition ret {A : Type} (a : A) : M A := fun r => (inr a, r).

Definition raise {A : Type} (e : exn) : M A := fun r => (inl e, r).

Definition bind {A B : Type} (m : M A) (f : A -> M B) : M B :=
  fun r =>
    match m r with
    | (inr a, r') => f a r'
    | (inl e, r') => (inl e, r')
    end.

(** The value of an expression that may raise. *)
Definition eval {A : Type} (v : exn + A) : M A :=
  fun r => (v, r).

Notation "x <- m ;; f" := (bind m (fun x => f))
  (at level 61, m at next level, right associativity).
Notation "m ;; f" := (bind m (fun _ => f))
  (at level 61, right associativity).

Definition set_serial (s : option port) : M unit :=
  fun r => (inr tt, mkreader s (time r) (int_temp r) (ext_temp r)).

(** [self.time += [x]] and the like. *)
Definition append_time (x : number) : M unit :=
  fun r => (inr tt,
            mkreader (_serial r) (time r ++ [x]) (int_temp r) (ext_temp r)).

Definition append_int_temp (x : number) : M unit :=
  fun r => (inr tt,
            mkreader (_serial r) (time r) (int_temp r ++ [x]) (ext_temp r)).

Definition append_ext_temp (x : number) : M unit :=
  fun r => (inr tt,
            mkreader (_serial r) (time r) (int_temp r) (ext_temp r ++ [x])).

(** [__init__] *)
Definition init : reader := mkreader None [] [] [].

Definition reset_data : M unit :=
  fun r => (inr tt, mkreader (_serial r) [] [] []).

(** [close]: the guard is the truth value of [self._serial]; a port
    object is true whether it is open or not, only [None] is false.
    [self._serial.close()] closes the port object in place: the attribute
    goes on holding it, it is not set back to [None]. *)
Definition close : M unit :=
  fun r =>
    match _serial r with
    | Some p =>
        (reset_data ;;
         eval (Serial.flush p) ;;
         set_serial (Some (Serial.close p))) r
    | None => ret tt r
    end.

Definition open (name : string) (baud_rate : Z) : M unit :=
  close ;;
  p <- eval (new_Serial name baud_rate) ;;
  set_serial (Some p).

(** The six [int(groups[...])] arguments, left to right, then the
    constructor call. *)
Definition datetime_of (groups : groupdict) : exn + datetime :=
  let field name :=
    match getitem groups name with
    | inr s => int s
    | inl e => inl e
    end in
  match field "year" with inl e => inl e | inr y =>
  match field "month" with inl e => inl e | inr mo =>
  match field "day" with inl e => inl e | inr d =>
  match field "hour" with inl e => inl e | inr h =>
  match field "minute" with inl e => inl e | inr mi =>
  match field "second" with inl e => inl e | inr s =>
    new_datetime y mo d h mi s
  end end end end end end.

Definition float_of (groups : groupdict) (name : string) : exn + number :=
  match getitem groups name with
  | inr s => float s
  | inl e => inl e
  end.

(** The body of [if match:]. *)
Definition store_match (groups : groupdict) : M unit :=
  date <- eval (datetime_of groups) ;;
  append_time (date2num date) ;;
  x <- eval (float_of groups "int_temp") ;;
  append_int_temp x ;;
  y <- eval (float_of groups "ext_temp") ;;
  append_ext_temp y.

(** The body of the [while] loop, up to the next [readline]. *)
Definition read_line (data : string) : M unit :=
  match re_match regex data with
  | Some groups => store_match groups
  | None => ret tt
  end.

(** The [while data:] loop. [lines] are the byte strings the successive
    [readline()] calls return on the open port; an empty one, or the end
    of the list, is the empty read that ends the loop. *)
Fixpoint read_loop (lines : list string) : M unit :=
  match lines with
  | [] => ret tt
  | data :: rest =>
      if nonempty data then read_line data ;; read_loop rest
      else ret tt
  end.

(** [read]: as in [close], the guard lets a closed port object through;
    [readline] on a port that is not open raises [portNotOpenError]. *)
Definition read (lines : list string) : M unit :=
  fun r =>
    match _serial r with
    | Some p =>
        if is_open p then read_loop lines r
        else raise SerialException r
    | None => ret tt r
    end.

(** The states a reader object goes through: created by [__init__], then
    any calls of its methods, returning or raising. *)
Inductive reachable : reader -> Prop :=
| reach_init : reachable init
| reach_reset_data r :
    reachable r -> reachable (snd (reset_data r))
| reach_open r name baud_rate :
    reachable r -> reachable (snd (open name baud_rate r))
| reach_close r :
    reachable r -> reachable (snd (close r))
| reach_read r lines :
    reachable r -> reachable (snd (read lines r)).

Definition connected (r : reader) : bool :=
  match _serial r with
  | Some p => is_open p
  | None => false
  end.

Definition lengths (r : reader) : nat * nat * nat :=
  (List.length (time r), List.length (int_temp r), List.length (ext_temp r)).

End Reader.

(** ** A deterministic scanner for the record pattern

    Every repetition of the pattern is followed by a character outside its
    class, so the matcher never has a choice: each field is the longest run
    of its class. [scan_record] reads a line that way, left to right. *)

Definition scanner (A : Type) : Type := string -> option (A * string).

Definition field (p : ascii -> bool) : scanner string :=
  fun s => let (a, rest) := span p s in
           if nonempty a then Some (a, rest) else None.

Definition lit (c : ascii) : scanner unit :=
  fun s => match s with
           | String c' s' => if Ascii.eqb c c' then Some (tt, s') else None
           | EmptyString => None
           end.

Definition one (p : ascii -> bool) : scanner ascii :=
  fun s => match s with
           | String c s' => if p c then Some (c, s') else None
           | EmptyString => None
           end.

Definition andthen {A B : Type} (m : scanner A) (f : A -> scanner B)
  : scanner B :=
  fun s => match m s with
           | Some (a, s') => f a s'
           | None => None
           end.

Definition yield {A : Type} (a : A) : scanner A := fun s => Some (a, s).

Notation "x <~ m ;; f" := (andthen m (fun x => f))
  (at level 61, m at next level, right associativity).

(** The text of an [ext_temp] group: digits, a full stop, two digits. *)
Definition ext_text (whole : string) (d1 d2 : ascii) : string :=
  whole ++ String "." (String d1 (String d2 EmptyString)).

(** The last field: digits, a full stop, two digits. *)
Definition scan_ext : scanner string :=
  w <~ field is_digit ;; _ <~ lit "." ;;
  d1 <~ one is_digit ;; d2 <~ one is_digit ;;
  yield (ext_text w d1 d2).

(** The eight fields after the id. *)
Definition scan_fields : scanner groupdict :=
  _ <~ lit "," ;;
  y <~ field is_digit ;; _ <~ lit "-" ;;
  mo <~ field is_digit ;; _ <~ lit "-" ;;
  d <~ field is_digit ;; _ <~ lit "," ;;
  h <~ field is_digit ;; _ <~ lit ":" ;;
  mi <~ field is_digit ;; _ <~ lit ":" ;;
  s <~ field is_digit ;; _ <~ lit "," ;;
  it <~ field is_digit_or_dot ;; _ <~ lit "," ;;
  et <~ scan_ext ;;
  yield [("ext_temp", et); ("int_temp", it);
         ("second", s); ("minute", mi); ("hour", h);
         ("day", d); ("month", mo); ("year", y)].

Definition scan_record (line : string) : option groupdict :=
  match (id <~ field is_digit ;; g <~ scan_fields ;;
         yield (g ++ [("id", id)])%list) line with
  | Some (g, _) => Some g
  | None => None
  end.

(** The groups of a match: nine texts, each of the form its part of the
    pattern imposes. *)
Definition matched_groups (g : groupdict) : Prop :=
  exists id y mo d h mi s it w d1 d2,
    g = [("ext_temp", ext_text w d1 d2); ("int_temp", it);
         ("second", s); ("minute", mi); ("hour", h);
         ("day", d); ("month", mo); ("year", y); ("id", id)]
    /\ run is_digit id = true /\ run is_digit y = true
    /\ run is_digit mo = true /\ run is_digit d = true
    /\ run is_digit h = true /\ run is_digit mi = true
    /\ run is_digit s = true /\ run is_digit_or_dot it = true
    /\ run is_digit w = true /\ is_digit d1 = true /\ is_digit d2 = true.

(** The text of a record up to and including the comma before the last
    field. *)
Definition record_head (id y mo d h mi s it : string) : string :=
  id ++ "," ++ y ++ "-" ++ mo ++ "-" ++ d ++ ","
     ++ h ++ ":" ++ mi ++ ":" ++ s ++ "," ++ it ++ ",".

(** A line begins with a record: an id, a date, a time, an internal
    temperature written with digits and full stops in any number and
    order, then digits, a full stop and two digits; anything may follow. *)
Definition begins_with_record (line : string) : Prop :=
  exists id y mo d h mi s it w d1 d2 rest,
    run is_digit id = true /\ run is_digit y = true
    /\ run is_digit mo = true /\ run is_digit d = true
    /\ run is_digit h = true /\ run is_digit mi = true
    /\ run is_digit s = true /\ run is_digit_or_dot it = true
    /\ run is_digit w = true /\ is_digit d1 = true /\ is_digit d2 = true
    /\ line = record_head id y mo d h mi s it ++ ext_text w d1 d2 ++ rest.

(** ** The record grammar of the specification

    [<id:digits>,<year:digits>-<month:digits>-<day:digits>,
    <hour:digits>:<minute:digits>:<second:digits>,
    <int_temp:digits[.digits]>,<ext_temp:digits.digits(2)>], one record
    per line. The definitions of this part follow the words of the
    specification, not the pattern of the source; the theorems compare
    the two. *)

Definition CR : string := String (ascii_of_nat 13) EmptyString.

(** A sample: the timestamp and the two readings a record holds. *)
Record sample : Type := mksample {
  timestamp : datetime;
  internal : Q;
  external : Q
}.

(** The number written by the digits [a], a full stop and the digits
    [b], in lowest terms. *)
Definition decimal (a b : string) : Q :=
  Qred (digits_value 0 (a ++ b) # Z.to_pos (10 ^ Z.of_nat (String.length b))).

(** [[.digits]]: nothing, or a full stop and digits, in any number or
    none. *)
Definition scan_fraction : scanner string :=
  fun s =>
    match s with
    | String c s' => if Ascii.eqb c "." then Some (span is_digit s')
                     else Some (EmptyString, s)
    | EmptyString => Some (EmptyString, s)
    end.

(** The nine fields, left to right, and the values they denote. *)
Definition scan_sample : scanner sample :=
  _ <~ field is_digit ;; _ <~ lit "," ;;
  y <~ field is_digit ;; _ <~ lit "-" ;;
  mo <~ field is_digit ;; _ <~ lit "-" ;;
  d <~ field is_digit ;; _ <~ lit "," ;;
  h <~ field is_digit ;; _ <~ lit ":" ;;
  mi <~ field is_digit ;; _ <~ lit ":" ;;
  s <~ field is_digit ;; _ <~ lit "," ;;
  a <~ field is_digit ;; b <~ scan_fraction ;; _ <~ lit "," ;;
  w <~ field is_digit ;; _ <~ lit "." ;;
  d1 <~ one is_digit ;; d2 <~ one is_digit ;;
  yield (mksample
           (mkdatetime (digits_value 0 y) (digits_value 0 mo)
              (digits_value 0 d) (digits_value 0 h) (digits_value 0 mi)
              (digits_value 0 s))
           (decimal a b)
           (decimal w (String d1 (String d2 EmptyString)))).

(** One record per line: after the record the line ends, with or
    without its terminator. *)
Definition line_end (s : string) : bool :=
  String.eqb s EmptyString || String.eqb s LF || String.eqb s (CR ++ LF).

(** The lines that match the grammar. *)
Definition record_grammar (line : string) : bool :=
  match scan_sample line with
  | Some (_, rest) => line_end rest
  | None => false
  end.

(** A calendar date and a time of day that exist. *)
Definition in_range (t : datetime) : bool :=
  valid_date (year t) (month t) (day t)
  && valid_time (hour t) (minute t) (second t).

(** The sample of a valid line: one that matches the grammar, with
    calendar fields in range. *)
Definition parse_record (line : string) : option sample :=
  match scan_sample line with
  | Some (smp, rest) =>
      if line_end rest && in_range (timestamp smp) then Some smp else None
  | None => None
  end.

(** ** An exact instance of what is taken from outside

    Floats are the exact rationals themselves; a datetime converts to its
    proleptic Gregorian ordinal plus the fraction of the day; a port opens
    for every name but the empty one, at every positive baud rate. *)

Module Exact.

Definition days_before_year (y : Z) : Z :=
  (y - 1) * 365 + (y - 1) / 4 - (y - 1) / 100 + (y - 1) / 400.

Definition days_before_month (y m : Z) : Z :=
  fold_right Z.add 0
    (map (days_in_month y) (map Z.of_nat (seq 1 (Z.to_nat (m - 1))))).

Definition toordinal (d : datetime) : Z :=
  days_before_year (year d) + days_before_month (year d) (month d) + day d.

Definition date2num (d : datetime) : Q :=
  Qred ((toordinal d * 86400 + hour d * 3600 + minute d * 60 + second d)
        # 86400).

Definition connect (name : string) (baud_rate : Z) : option exn :=
  if baud_rate <=? 0 then Some ValueError
  else if nonempty name then None
  else Some SerialException.

Definition platform : Platform :=
  Build_Platform Q (fun q => q) date2num connect.

Definition reader : Type := @reader platform.
Definition mkreader (s : option port) (t i e : list Q) : reader :=
  @mkreader platform s t i e.
Definition init : reader := @init platform.
Definition open : string -> Z -> M unit := @open platform.
Definition close : M unit := @close platform.
Definition read : list string -> M unit := @read platform.

(** A reader on which [open("COM3", 115200)] has just returned. *)
Definition fresh : reader :=
  snd (open "COM3" 115200 init).

(** The same reader after [close()]. *)
Definition closed : reader :=
  snd (close fresh).

(** The reader after a poll that read one record. *)
Definition loaded : reader :=
  snd (read ["1,2020-01-01,00:00:00,20.0,20.00" ++ LF] fresh).

(** Lines for the examples below. *)
Definition line_first : string := "1,2020-01-01,00:00:00,20.0,20.00" ++ LF.
Definition line_second : string := "2,2020-01-01,00:00:01,20.5,20.50" ++ LF.
Definition line_bad : string := "x,bad,line" ++ LF.
Definition line_month13 : string :=
  "1,2020-13-01,00:00:00,20.0,20.00" ++ LF.
Definition line_two_dots : string :=
  "1,2020-01-01,00:00:00,1.2.3,20.00" ++ LF.
Definition line_lone_dot : string := "7,2013-07-04,14:23:05,.,25.31" ++ LF.
Definition line_three_decimals : string :=
  "1,2020-01-01,00:00:00,20.0,20.505" ++ LF.

Definition groups_month13 : groupdict :=
  [("ext_temp", "20.00"); ("int_temp", "20.0"); ("second", "00");
   ("minute", "00"); ("hour", "00"); ("day", "01"); ("month", "13");
   ("year", "2020"); ("id", "1")].

End Exact.

(** A reader that holds a port object that is no longer open. *)
Definition stale {platform : Platform} (r : reader) : Prop :=
  exists p, _serial r = Some p /\ is_open p = false.

(** ** The plot window

    [TempLogPlot], the [wx.Frame] that owns the reader: its attributes
    and its event handlers. Of the toolkit only what the handlers read
    and write is kept: the two fields of the status bar, the label of the
    pause button, the grid check box, whether the frame was destroyed, and
    a log of what [draw_plot] hands to the canvas and of the files
    [print_figure] wrote. *)

(** Arithmetic and order on Python numbers, as [draw_plot] uses them:
    [lt] is [<], [of_int] injects an int ([self.ext_temp] starts as
    [[25]]), [round0 x] is [round(x, 0)]. *)
Class Arith {platform : Platform} : Type := {
  lt : number -> number -> bool;
  add : number -> number -> number;
  sub : number -> number -> number;
  round0 : number -> number;
  of_int : Z -> number
}.

(** The exception with which [canvas.draw()] refuses a line whose x and
    y data cannot be paired ([RuntimeError] in matplotlib 1, [ValueError]
    in later versions). *)
Class Canvas : Type := {
  mismatch : exn
}.

Section Builtins.

Context {platform : Platform} {arith : Arith}.

Fixpoint max_from (m : number) (l : list number) : number :=
  match l with
  | [] => m
  | x :: l' => max_from (if lt m x then x else m) l'
  end.

Fixpoint min_from (m : number) (l : list number) : number :=
  match l with
  | [] => m
  | x :: l' => min_from (if lt x m then x else m) l'
  end.

(** [max(l)] and [min(l)]: the first greatest (least) element; a
    [ValueError] on the empty list. *)
Definition max (l : list number) : exn + number :=
  match l with
  | [] => inl ValueError
  | x :: l' => inr (max_from x l')
  end.

Definition min (l : list number) : exn + number :=
  match l with
  | [] => inl ValueError
  | x :: l' => inr (min_from x l')
  end.

(** Whether a line can be drawn from these x and y data: matplotlib
    pairs lists of the same length, and repeats the single element of a
    list of length one. *)
Definition pairable (x y : list number) : bool :=
  (List.length x =? List.length y)%nat
  || (List.length x =? 1)%nat || (List.length y =? 1)%nat.

(** The reader's [time] and [ext_temp], which the timer handler copies. *)
Definition samples (r : reader) : list number * list number :=
  (time r, ext_temp r).

End Builtins.

Module TempLogPlot.

Section Frame.

Context {platform : Platform} {arith : Arith} {matplotlib : Canvas}.

(** What one [draw_plot] sets on the axes and the line before
    [canvas.draw()]. *)
Record drawing : Type := mkdrawing {
  xbound : number * number;
  ybound : number * number;
  grid : bool;
  xdata : list number;
  ydata : list number
}.

Record frame : Type := mkframe {
  serial_reader : reader;
  time : list number;
  ext_temp : list number;
  paused : bool;
  status_bar : string * string;
  pause_button : string;
  cb_grid : bool;
  canvas : list drawing;
  printed : list string;
  destroyed : bool
}.

(** A handler runs on the frame and returns or raises. *)
Definition handler : Type := frame -> (exn + unit) * frame.

Definition set_serial_reader (r : reader) (f : frame) : frame :=
  mkframe r (time f) (ext_temp f) (paused f) (status_bar f)
    (pause_button f) (cb_grid f) (canvas f) (printed f) (destroyed f).

Definition set_data (t e : list number) (f : frame) : frame :=
  mkframe (serial_reader f) t e (paused f) (status_bar f)
    (pause_button f) (cb_grid f) (canvas f) (printed f) (destroyed f).

Definition set_paused (b : bool) (f : frame) : frame :=
  mkframe (serial_reader f) (time f) (ext_temp f) b (status_bar f)
    (pause_button f) (cb_grid f) (canvas f) (printed f) (destroyed f).

(** [self.status_bar.SetStatusText(text, i)]; the field is 0 when not
    given. *)
Definition SetStatusText (text : string) (i : nat) (f : frame) : frame :=
  mkframe (serial_reader f) (time f) (ext_temp f) (paused f)
    (match i with
     | O => (text, snd (status_bar f))
     | _ => (fst (status_bar f), text)
     end)
    (pause_button f) (cb_grid f) (canvas f) (printed f) (destroyed f).

Definition SetLabel (label : string) (f : frame) : frame :=
  mkframe (serial_reader f) (time f) (ext_temp f) (paused f) (status_bar f)
    label (cb_grid f) (canvas f) (printed f) (destroyed f).

Definition set_cb_grid (b : bool) (f : frame) : frame :=
  mkframe (serial_reader f) (time f) (ext_temp f) (paused f) (status_bar f)
    (pause_button f) b (canvas f) (printed f) (destroyed f).

Definition canvas_draw (d : drawing) (f : frame) : frame :=
  mkframe (serial_reader f) (time f) (ext_temp f) (paused f) (status_bar f)
    (pause_button f) (cb_grid f) (d :: canvas f) (printed f) (destroyed f).

Definition print_figure (path : string) (f : frame) : frame :=
  mkframe (serial_reader f) (time f) (ext_temp f) (paused f) (status_bar f)
    (pause_button f) (cb_grid f) (canvas f) (path :: printed f)
    (destroyed f).

Definition Destroy (f : frame) : frame :=
  mkframe (serial_reader f) (time f) (ext_temp f) (paused f) (status_bar f)
    (pause_button f) (cb_grid f) (canvas f) (printed f) true.

(** [__init__], at the time [now]: a new reader, one placeholder point,
    and what [create_status_bar] and [create_main_panel] set. Nothing is
    drawn before the first timer event. *)
Definition new (now : datetime) : frame :=
  mkframe init [date2num now] [of_int 25] false
    (EmptyString, "Not connected") "Pause" true [] [] false.

(** [draw_plot]: a window of 0.004 day up to the latest time, the
    temperatures rounded out by one degree, the grid as the check box says,
    then the data. [max] and [min] come first and raise on an empty
    list, before anything is set; [canvas.draw()] comes last and raises
    when the data cannot be paired, and then nothing is drawn. *)
Definition draw_plot : handler :=
  fun f =>
    match max (time f) with
    | inl e => (inl e, f)
    | inr xmax =>
        let xmin := sub xmax (to_float (Qred (4 # 1000))) in
        match min (ext_temp f) with
        | inl e => (inl e, f)
        | inr lo =>
            let ymin := sub (round0 lo) (of_int 1) in
            match max (ext_temp f) with
            | inl e => (inl e, f)
            | inr hi =>
                let ymax := add (round0 hi) (of_int 1) in
                if pairable (time f) (ext_temp f) then
                  (inr tt,
                   canvas_draw (mkdrawing (xmin, xmax) (ymin, ymax)
                                  (cb_grid f) (time f) (ext_temp f)) f)
                else (inl mismatch, f)
            end
        end
    end.

Definition on_pause_button : handler :=
  fun f => (inr tt, set_paused (negb (paused f)) f).

Definition on_update_pause_button : handler :=
  fun f => (inr tt, SetLabel (if paused f then "Resume" else "Pause") f).

(** [on_serial_port]: [sp] is what the choice dialog returned, the empty
    string when it was cancelled. *)
Definition on_serial_port (sp : string) : handler :=
  fun f =>
    if nonempty sp then
      match open sp 115200 (serial_reader f) with
      | (inr _, r) => (inr tt, SetStatusText sp 1 (set_serial_reader r f))
      | (inl e, r) => (inl e, set_serial_reader r f)
      end
    else (inr tt, f).

(** [on_cb_grid]: the check box has already changed when the handler
    runs. *)
Definition on_cb_grid : handler := draw_plot.

Definition flash_status_message (msg : string) : handler :=
  fun f => (inr tt, SetStatusText msg 0 f).

Definition on_flash_status_off : handler :=
  fun f => (inr tt, SetStatusText EmptyString 0 f).

(** [on_save_plot]: [chosen] is the path of the file dialog, [None] when
    it was dismissed. *)
Definition on_save_plot (chosen : option string) : handler :=
  fun f =>
    match chosen with
    | Some path =>
        flash_status_message ("Saved to " ++ path) (print_figure path f)
    | None => (inr tt, f)
    end.

(** [on_redraw_timer]: [lines] are what the port has for this poll. *)
Definition on_redraw_timer (lines : list string) : handler :=
  fun f =>
    match read lines (serial_reader f) with
    | (inl e, r) => (inl e, set_serial_reader r f)
    | (inr _, r) =>
        let f1 := set_serial_reader r f in
        if paused f1 then (inr tt, f1)
        else
          let (t, e) := samples r in
          draw_plot (match t with
                     | [] => f1
                     | _ :: _ => set_data t e f1
                     end)
    end.

Definition on_exit : handler :=
  fun f =>
    match close (serial_reader f) with
    | (inr _, r) => (inr tt, Destroy (set_serial_reader r f))
    | (inl e, r) => (inl e, set_serial_reader r f)
    end.

(** What happens to the window: the timer fires, the user presses the
    pause button, ticks the grid box, chooses a port or a file, leaves;
    the toolkit refreshes the button and ends a flashed message. *)
Inductive event : Type :=
| Timer (lines : list string)
| PauseButton
| UpdatePauseButton
| SerialPort (sp : string)
| CbGrid
| SavePlot (chosen : option string)
| FlashOff
| Exit.

(** The handler bound to each event. The grid box toggles before its
    handler is called. *)
Definition handle (ev : event) : handler :=
  match ev with
  | Timer lines => on_redraw_timer lines
  | PauseButton => on_pause_button
  | UpdatePauseButton => on_update_pause_button
  | SerialPort sp => on_serial_port sp
  | CbGrid => fun f => on_cb_grid (set_cb_grid (negb (cb_grid f)) f)
  | SavePlot chosen => on_save_plot chosen
  | FlashOff => on_flash_status_off
  | Exit => on_exit
  end.

(** The main loop: an exception raised by a handler ends that handler
    only; a destroyed frame gets no more events. *)
Fixpoint run (evs : list event) (f : frame) : frame :=
  match evs with
  | [] => f
  | ev :: evs' =>
      if destroyed f then f else run evs' (snd (handle ev f))
  end.

(** What every frame started by [new] satisfies, whatever events it has
    handled. *)
Definition plot_invariant (f : frame) : Prop :=
  time f <> []
  /\ (List.length (ext_temp f) <= List.length (time f))%nat
  /\ reachable (serial_reader f).

(** The right field of the status bar names the port object the reader
    holds. *)
Definition status_invariant (f : frame) : Prop :=
  match _serial (serial_reader f) with
  | None => snd (status_bar f) = "Not connected"
  | Some p => snd (status_bar f) = portstr p /\ baudrate p = 115200
  end.

(** What an event asks of the reader. *)
Definition reader_step (ev : event) : M unit :=
  match ev with
  | Timer lines => read lines
  | SerialPort sp => if nonempty sp then open sp 115200 else ret tt
  | Exit => close
  | _ => ret tt
  end.

(** The reader's own history under a list of events, up to the [Exit]
    whose [close] returns. *)
Fixpoint reader_run (evs : list event) (r : reader) : reader :=
  match evs with
  | [] => r
  | ev :: evs' =>
      match ev, reader_step ev r with
      | Exit, (inr _, r') => r'
      | _, (_, r') => reader_run evs' r'
      end
  end.

Definition is_pause_button (ev : event) : bool :=
  match ev with
  | PauseButton => true
  | _ => false
  end.

End Frame.

End TempLogPlot.

(** An exact instance for the window: the rationals with their
    arithmetic, and a platform on which the port "COM9" is busy. *)

Module ExactPlot.

Definition connect (name : string) (baud_rate : Z) : option exn :=
  if String.eqb name "COM9" then Some SerialException
  else Exact.connect name baud_rate.

Definition platform : Platform :=
  Build_Platform Q (fun q => q) Exact.date2num connect.

Definition round0 (q : Q) : Q :=
  let n := Qnum q in
  let d := Zpos (Qden q) in
  if 0 <=? n then ((2 * n + d) / (2 * d)) # 1
  else (- ((2 * (- n) + d) / (2 * d))) # 1.

Definition arith : @Arith platform :=
  @Build_Arith platform
    (fun a b => negb (Qle_bool b a))
    (fun a b => Qred (a + b)) (fun a b => Qred (a - b))
    round0 (fun z => z # 1).

Definition matplotlib : Canvas := Build_Canvas RuntimeError.

Definition reader : Type := @reader platform.

Definition frame : Type := @TempLogPlot.frame platform.

Definition run : list TempLogPlot.event -> frame -> frame :=
  @TempLogPlot.run platform arith matplotlib.

(** A window opened on 1 January 2020 at noon. *)
Definition new : frame :=
  @TempLogPlot.new platform arith (mkdatetime 2020 1 1 12 0 0).

(** The window after the port "COM3" was chosen and two records came. *)
Definition plotting : frame :=
  run [TempLogPlot.SerialPort "COM3";
       TempLogPlot.Timer [Exact.line_first; Exact.line_second]] new.

(** The same, paused. *)
Definition frozen : frame :=
  run [TempLogPlot.PauseButton] plotting.

(** The same as [plotting], after the busy port "COM9" was chosen. *)
Definition stuck : frame :=
  run [TempLogPlot.SerialPort "COM9"] plotting.

End ExactPlot.

(** ** Facts about byte strings *)

Lemma span_append p s :
  fst (span p s) ++ snd (span p s) = s.
Proof.
  induction s as [|c s IH]; simpl; [reflexivity|].
  destruct (p c); [|reflexivity].
  destruct (span p s) as [a b]; simpl in *. now rewrite IH.
Qed.

Lemma span_all p s : all_chars p (fst (span p s)) = true.
Proof.
  induction s as [|c s IH]; simpl; [reflexivity|].
  destruct (p c) eqn:E; [|reflexivity].
  destruct (span p s) as [a b]; simpl in *. now rewrite E.
Qed.

Lemma span_stops p s : stops p (snd (span p s)) = true.
Proof.
  induction s as [|c s IH]; simpl; [reflexivity|].
  destruct (p c) eqn:E; simpl; [|now rewrite E].
  now destruct (span p s) as [a b].
Qed.

Lemma span_empty p s :
  nonempty (fst (span p s)) = false -> snd (span p s) = s.
Proof.
  destruct s as [|c s]; simpl; [reflexivity|].
  destruct (p c); [|reflexivity].
  destruct (span p s); simpl. discriminate.
Qed.

Lemma span_head p c s :
  nonempty (fst (span p (String c s))) = p c.
Proof.
  simpl. destruct (p c); [|reflexivity]. now destruct (span p s).
Qed.

(** A run of the class followed by a text that stops it is the span. *)
Lemma span_run p a rest :
  all_chars p a = true -> stops p rest = true ->
  span p (a ++ rest) = (a, rest).
Proof.
  intros Ha Hr. induction a as [|c a IH]; simpl in *.
  - destruct rest as [|c r]; [reflexivity|].
    apply negb_true_iff in Hr. simpl. now rewrite Hr.
  - apply andb_prop in Ha as [Hc Ha]. now rewrite Hc, IH.
Qed.

Lemma length_append a b :
  String.length (a ++ b) = (String.length a + String.length b)%nat.
Proof. induction a; simpl; congruence. Qed.

Lemma substring_prefix a b :
  substring 0 (String.length a) (a ++ b) = a.
Proof.
  induction a as [|c a IH]; simpl.
  - now destruct b.
  - now rewrite IH.
Qed.

Lemma consumed_append a rest : consumed (a ++ rest) rest = a.
Proof.
  unfold consumed. rewrite length_append.
  replace (String.length a + String.length rest - String.length rest)%nat
    with (String.length a) by lia.
  apply substring_prefix.
Qed.

Lemma append_assoc (a b c : string) : (a ++ b) ++ c = a ++ (b ++ c).
Proof. induction a; simpl; congruence. Qed.

Lemma class_excludes (p : ascii -> bool) (c c' : ascii) :
  p c = false -> p c' = true -> Ascii.eqb c c' = false.
Proof.
  intros Hc Hc'. destruct (Ascii.eqb_spec c c'); [congruence|reflexivity].
Qed.

(** ** The matcher on the record pattern is the scanner *)

(** When the rest of the pattern rejects every text that starts in the
    class, the repetition takes the whole run and nothing is given back. *)
Lemma plus_class_span {A} p (k : string -> option A) s :
  (forall c s', p c = true -> k (String c s') = None) ->
  plus_class p k s =
    if nonempty (fst (span p s)) then k (snd (span p s)) else None.
Proof.
  intros Hk. induction s as [|c s IH]; [reflexivity|].
  rewrite span_head. cbn [plus_class].
  destruct (p c) eqn:Hc; [|reflexivity].
  rewrite IH. simpl. rewrite Hc.
  destruct s as [|c' s'].
  - reflexivity.
  - rewrite span_head.
    destruct (span p (String c' s')) as [a b] eqn:Hs. cbn [fst snd].
    destruct (p c') eqn:Hc'.
    + destruct (k b); [reflexivity|]. now apply Hk.
    + assert (Hb : snd (span p (String c' s')) = String c' s').
      { apply span_empty. now rewrite span_head. }
      rewrite Hs in Hb. simpl in Hb. now rewrite Hb.
Qed.

Lemma rmatch_field name p s g k :
  (forall c s' g', p c = true -> k (String c s') g' = None) ->
  rmatch (Group name (Plus p)) s g k =
    match field p s with
    | Some (a, rest) => k rest ((name, a) :: g)
    | None => None
    end.
Proof.
  intros Hk. cbn [rmatch]. rewrite plus_class_span.
  - unfold field. pose proof (span_append p s) as Happ.
    destruct (span p s) as [a b]. cbn [fst snd] in *.
    destruct (nonempty a); [|reflexivity].
    subst s. now rewrite consumed_append.
  - intros c s' Hc. now apply Hk.
Qed.

Lemma rmatch_lit c s g k :
  rmatch (Lit c) s g k =
    match lit c s with
    | Some (_, rest) => k rest g
    | None => None
    end.
Proof.
  destruct s as [|c' s']; [reflexivity|]. simpl.
  now destruct (Ascii.eqb c c').
Qed.

Lemma lit_rejects (p : ascii -> bool) c r c' s g k :
  p c = false -> p c' = true ->
  rmatch (Cat (Lit c) r) (String c' s) g k = None.
Proof.
  intros Hc Hc'. cbn [rmatch]. now rewrite (class_excludes p c c').
Qed.

Lemma rmatch_cat r1 r2 s g k :
  rmatch (Cat r1 r2) s g k =
    rmatch r1 s g (fun s' g' => rmatch r2 s' g' k).
Proof. reflexivity. Qed.

(** The last group: a run of the class [p], the literal [c], then two
    single characters. *)
Lemma rmatch_tail name p c q1 q2 s g k :
  p c = false ->
  rmatch (Group name (Cat (Plus p) (Cat (Lit c) (Cat (Class q1) (Class q2)))))
         s g k =
    match (w <~ field p ;; _ <~ lit c ;; d1 <~ one q1 ;; d2 <~ one q2 ;;
           yield (w ++ String c (String d1 (String d2 EmptyString)))) s with
    | Some (text, rest) => k rest ((name, text) :: g)
    | None => None
    end.
Proof.
  intros Hc. cbn [rmatch]. rewrite plus_class_span.
  - unfold andthen, field, yield. pose proof (span_append p s) as Happ.
    destruct (span p s) as [w r1]. cbn [fst snd] in *.
    destruct (nonempty w); [|reflexivity].
    destruct r1 as [|c1 r1]; [reflexivity|]. cbn [lit].
    destruct (Ascii.eqb_spec c c1) as [->|]; [|reflexivity].
    destruct r1 as [|d1 r1]; [reflexivity|]. cbn [one].
    destruct (q1 d1); [|reflexivity].
    destruct r1 as [|d2 r1]; [reflexivity|]. cbn [one].
    destruct (q2 d2); [|reflexivity].
    subst s.
    replace (w ++ String c1 (String d1 (String d2 r1)))
      with ((w ++ String c1 (String d1 (String d2 EmptyString))) ++ r1)
      by (now rewrite append_assoc).
    now rewrite consumed_append.
  - intros c' s' Hc'. now rewrite (class_excludes p c c').
Qed.

Ltac rejects_class :=
  let Hc := fresh "Hc" in
  intros ? ? ? Hc; cbv beta;
  first [ apply (lit_rejects is_digit); [reflexivity | exact Hc]
        | apply (lit_rejects is_digit_or_dot); [reflexivity | exact Hc] ].

Ltac scan_field :=
  rewrite rmatch_cat, rmatch_field by rejects_class;
  cbv beta;
  match goal with
  | |- context [field ?p ?s] => destruct (field p s) as [[? ?]|]
  end; [|reflexivity].

Ltac scan_lit :=
  rewrite rmatch_cat, rmatch_lit;
  match goal with
  | |- context [lit ?c ?s] => destruct (lit c s) as [[[] ?]|]
  end; [|reflexivity].

Theorem scan_record_correct (line : string) :
  re_match regex line = scan_record line.
Proof.
  unfold re_match, regex, scan_record, scan_fields, andthen.
  do 8 (scan_field; scan_lit).
  rewrite rmatch_tail by reflexivity.
  unfold scan_ext, andthen, yield, ext_text.
  repeat match goal with
         | |- context [match ?f ?s with Some _ => _ | None => _ end] =>
             destruct (f s) as [[? ?]|]; [|reflexivity]
         end.
  reflexivity.
Qed.

(** ** What a match holds *)

Lemma field_some p s a rest :
  field p s = Some (a, rest) ->
  run p a = true /\ stops p rest = true /\ s = a ++ rest.
Proof.
  unfold field, run. intros H.
  pose proof (span_append p s) as Happ.
  pose proof (span_all p s) as Hall.
  pose proof (span_stops p s) as Hst.
  destruct (span p s) as [a' b]. cbn [fst snd] in *.
  destruct (nonempty a') eqn:Hne; [|discriminate].
  injection H as <- <-. now rewrite Hne, Hall.
Qed.

Lemma field_run p a rest :
  run p a = true -> stops p rest = true ->
  field p (a ++ rest) = Some (a, rest).
Proof.
  unfold run, field. intros Ha Hst.
  apply andb_prop in Ha as [Hne Hall].
  now rewrite span_run, Hne.
Qed.

Lemma one_some p s c rest :
  one p s = Some (c, rest) -> p c = true /\ s = String c rest.
Proof.
  destruct s as [|c' s']; [discriminate|]. simpl.
  destruct (p c') eqn:Hc; [|discriminate].
  intros H. injection H as <- <-. auto.
Qed.

Lemma run_nonempty p s : run p s = true -> nonempty s = true.
Proof. unfold run. intros H. now apply andb_prop in H. Qed.

Lemma nonempty_append a b : nonempty a = true -> nonempty (a ++ b) = true.
Proof. now destruct a. Qed.

Lemma andthen_some {A B} (m : scanner A) (f : A -> scanner B) s b rest :
  andthen m f s = Some (b, rest) ->
  exists a s', m s = Some (a, s') /\ f a s' = Some (b, rest).
Proof.
  unfold andthen. destruct (m s) as [[a s']|]; [|discriminate].
  intros H. now exists a, s'.
Qed.

Ltac invert_scan :=
  repeat match goal with
         | H : andthen _ _ _ = Some _ |- _ =>
             let E := fresh "E" in
             apply andthen_some in H; destruct H as (? & ? & E & H);
             cbv beta in H
         | H : yield _ _ = Some _ |- _ =>
             unfold yield in H; injection H as H ?; subst
         | E : field _ _ = Some _ |- _ =>
             apply field_some in E; destruct E as (? & _ & _)
         | E : one _ _ = Some _ |- _ =>
             apply one_some in E; destruct E as (? & _)
         | E : lit _ _ = Some _ |- _ => clear E
         end.

Lemma scan_record_groups line g :
  scan_record line = Some g -> matched_groups g.
Proof.
  unfold scan_record. intros H.
  destruct (andthen _ _ line) as [[g' rest]|] eqn:E; [|discriminate].
  injection H as <-. unfold scan_fields, scan_ext in E.
  invert_scan. unfold matched_groups. cbn [app].
  repeat eexists; eassumption.
Qed.

Lemma re_match_groups line g :
  re_match regex line = Some g -> matched_groups g.
Proof. rewrite scan_record_correct. apply scan_record_groups. Qed.

Lemma re_match_nonempty line g :
  re_match regex line = Some g -> nonempty line = true.
Proof. now destruct line. Qed.

(** A line that starts with an id followed by a non-digit is scanned
    from there on without regard to the id. *)
Lemma scan_record_id id rest :
  run is_digit id = true -> stops is_digit rest = true ->
  scan_record (id ++ rest) =
    match scan_fields rest with
    | Some (g, _) => Some (g ++ [("id", id)])%list
    | None => None
    end.
Proof.
  intros Hid Hst. unfold scan_record, andthen at 1.
  rewrite field_run by assumption. unfold andthen, yield.
  now destruct (scan_fields rest) as [[g r]|].
Qed.

Lemma int_run s : run is_digit s = true -> int s = inr (digits_value 0 s).
Proof. unfold int, run. now intros ->. Qed.

Lemma decimal_value_ext w d1 d2 :
  run is_digit w = true -> is_digit d1 = true -> is_digit d2 = true ->
  decimal_value (ext_text w d1 d2) =
    Some (Qred (digits_value 0
                  (w ++ String d1 (String d2 EmptyString)) # 100)).
Proof.
  intros Hw H1 H2. unfold decimal_value, ext_text.
  apply andb_prop in Hw as [Hne Hall].
  rewrite span_run by (assumption || reflexivity).
  cbn [Ascii.eqb Bool.eqb all_chars String.length].
  rewrite H1, H2, nonempty_append by assumption. reflexivity.
Qed.

(** The six date and time groups of a match always convert; whether the
    datetime exists is up to the constructor. *)
Lemma datetime_of_groups g :
  matched_groups g ->
  exists y mo d h mi s, datetime_of g = new_datetime y mo d h mi s.
Proof.
  intros (id & y & mo & d & h & mi & s & it & w & d1 & d2 & -> & H).
  destruct H as (_ & Hy & Hmo & Hd & Hh & Hmi & Hs & _).
  unfold datetime_of, getitem. cbn [lookup String.eqb Ascii.eqb Bool.eqb].
  rewrite !int_run by assumption. now repeat eexists.
Qed.

Lemma new_datetime_error y mo d h mi s e :
  new_datetime y mo d h mi s = inl e -> e = ValueError \/ e = OverflowError.
Proof.
  unfold new_datetime.
  destruct (existsb _ _); [intros [= <-]; now right|].
  destruct (_ && _); [discriminate|]. intros [= <-]. now left.
Qed.

Lemma datetime_of_error g e :
  matched_groups g -> datetime_of g = inl e ->
  e = ValueError \/ e = OverflowError.
Proof.
  intros Hg He. destruct (datetime_of_groups g Hg)
    as (y & mo & d & h & mi & s & Heq).
  rewrite Heq in He. eapply new_datetime_error; eassumption.
Qed.

(** ** Properties of the reader *)

Section Properties.

Context {platform : Platform}.

Implicit Types (r : reader) (line : string) (lines : list string).

(** The three outcomes of storing a match: the constructor raises and
    nothing is appended; [float] raises on the internal temperature after
    the time has been appended; or all three lists grow by one. The text
    of an [ext_temp] group always converts (see [float_of_ext_temp]). *)
Lemma store_match_eq g r :
  store_match g r =
    match datetime_of g with
    | inl e => (inl e, r)
    | inr date =>
        let r1 := mkreader (_serial r) (time r ++ [date2num date])
                    (int_temp r) (ext_temp r) in
        match float_of g "int_temp" with
        | inl e => (inl e, r1)
        | inr x =>
            let r2 := mkreader (_serial r) (time r ++ [date2num date])
                        (int_temp r ++ [x]) (ext_temp r) in
            match float_of g "ext_temp" with
            | inl e => (inl e, r2)
            | inr y =>
                (inr tt,
                 mkreader (_serial r) (time r ++ [date2num date])
                   (int_temp r ++ [x]) (ext_temp r ++ [y]))
            end
        end
    end.
Proof.
  unfold store_match, bind, eval, append_time, append_int_temp,
    append_ext_temp.
  destruct (datetime_of g); [reflexivity|]. cbn.
  destruct (float_of g "int_temp"); [reflexivity|]. cbn.
  destruct (float_of g "ext_temp"); reflexivity.
Qed.

Lemma float_of_ext_temp g :
  matched_groups g -> exists y, float_of g "ext_temp" = inr y.
Proof.
  intros (id & y & mo & d & h & mi & s & it & w & d1 & d2 & -> & H).
  destruct H as (_ & _ & _ & _ & _ & _ & _ & _ & Hw & H1 & H2).
  unfold float_of, getitem, float.
  cbn [lookup String.eqb Ascii.eqb Bool.eqb].
  rewrite decimal_value_ext by assumption. eauto.
Qed.

Lemma store_match_serial g r :
  _serial (snd (store_match g r)) = _serial r.
Proof.
  rewrite store_match_eq.
  destruct (datetime_of g); [reflexivity|]. cbn.
  destruct (float_of g "int_temp"); [reflexivity|].
  destruct (float_of g "ext_temp"); reflexivity.
Qed.

Lemma read_line_serial line r :
  _serial (snd (read_line line r)) = _serial r.
Proof.
  unfold read_line. destruct (re_match regex line).
  - apply store_match_serial.
  - reflexivity.
Qed.

Lemma read_loop_serial lines r :
  _serial (snd (read_loop lines r)) = _serial r.
Proof.
  revert r. induction lines as [|data rest IH]; intros r; [reflexivity|].
  cbn [read_loop]. destruct (nonempty data); [|reflexivity].
  unfold bind. pose proof (read_line_serial data r) as Hs.
  destruct (read_line data r) as [[e|[]] r1]; cbn [snd] in *.
  - exact Hs.
  - now rewrite IH.
Qed.

Lemma read_connected lines r :
  connected r = true -> read lines r = read_loop lines r.
Proof.
  unfold connected, read. destruct (_serial r) as [p|]; [|discriminate].
  now intros ->.
Qed.

Lemma read_line_unmatched line r :
  re_match regex line = None -> read_line line r = (inr tt, r).
Proof. unfold read_line. now intros ->. Qed.

(** Lines that the pattern does not match are dropped: the poll returns
    and the reader is as it was. *)
Lemma read_unmatched lines r :
  connected r = true ->
  Forall (fun line => re_match regex line = None) lines ->
  read lines r = (inr tt, r).
Proof.
  intros Hc Hall. rewrite read_connected by assumption. clear Hc.
  induction Hall as [|line lines Hline _ IH]; [reflexivity|].
  cbn [read_loop]. destruct (nonempty line); [|reflexivity].
  unfold bind. now rewrite read_line_unmatched.
Qed.

Lemma read_line_matched line g r :
  re_match regex line = Some g -> read_line line r = store_match g r.
Proof. unfold read_line. now intros ->. Qed.

Lemma read_loop_cons line lines r :
  nonempty line = true ->
  read_loop (line :: lines) r =
    match read_line line r with
    | (inr _, r') => read_loop lines r'
    | (inl e, r') => (inl e, r')
    end.
Proof. intros Hne. cbn [read_loop]. now rewrite Hne. Qed.

(** C3, as the code has it. A line that the pattern matches but whose
    date and time groups the [datetime] constructor refuses appends
    nothing and leaves the reader as it was, and the constructor's error
    ([ValueError], or [OverflowError] for a field above the C int range)
    is raised by the poll: the lines after it are not read. *)
Theorem read_invalid_date_raises line lines g e r :
  connected r = true ->
  re_match regex line = Some g ->
  datetime_of g = inl e ->
  (e = ValueError \/ e = OverflowError) /\
  read (line :: lines) r = (inl e, r).
Proof.
  intros Hc Hm He. split.
  - eapply datetime_of_error; [eapply re_match_groups|]; eassumption.
  - rewrite read_connected by assumption.
    rewrite read_loop_cons by (eapply re_match_nonempty; eassumption).
    rewrite (read_line_matched _ _ _ Hm), store_match_eq. now rewrite He.
Qed.

(** A matched line whose date exists and whose internal temperature is a
    number appends one sample: the converted date, and the two numbers
    read from the temperature groups. *)
Lemma read_line_valid line g date x r :
  re_match regex line = Some g ->
  datetime_of g = inr date ->
  float_of g "int_temp" = inr x ->
  exists y,
    float_of g "ext_temp" = inr y /\
    read_line line r =
      (inr tt, mkreader (_serial r) (time r ++ [date2num date])
                 (int_temp r ++ [x]) (ext_temp r ++ [y])).
Proof.
  intros Hm Hd Hx.
  destruct (float_of_ext_temp g (re_match_groups _ _ Hm)) as [y Hy].
  exists y. split; [exact Hy|].
  rewrite (read_line_matched _ _ _ Hm), store_match_eq.
  now rewrite Hd, Hx, Hy.
Qed.

(** What a line does to the three sequences when its processing returns:
    it appends the same number of elements, none or one, to each. *)
Lemma read_line_returns line r r' :
  read_line line r = (inr tt, r') ->
  exists ts xs ys,
    (time r' = time r ++ ts)%list /\ (int_temp r' = int_temp r ++ xs)%list /\
    (ext_temp r' = ext_temp r ++ ys)%list /\
    List.length ts = List.length xs /\ List.length xs = List.length ys /\
    (List.length ts <= 1)%nat.
Proof.
  unfold read_line. destruct (re_match regex line) as [g|].
  - rewrite store_match_eq.
    destruct (datetime_of g) as [e|date]; [discriminate|]. cbn zeta.
    destruct (float_of g "int_temp") as [e|x]; [discriminate|].
    destruct (float_of g "ext_temp") as [e|y]; [discriminate|].
    intros [= <-]. exists [date2num date], [x], [y]. cbn.
    repeat split; auto.
  - intros [= <-]. exists [], [], []. cbn. rewrite !app_nil_r.
    repeat split; auto.
Qed.

(** A poll that returns has appended the same number of elements to each
    of the three sequences, after those that were there. *)
Lemma read_returns_aligned lines r r' :
  read lines r = (inr tt, r') ->
  exists ts xs ys,
    (time r' = time r ++ ts)%list /\ (int_temp r' = int_temp r ++ xs)%list /\
    (ext_temp r' = ext_temp r ++ ys)%list /\
    List.length ts = List.length xs /\ List.length xs = List.length ys.
Proof.
  assert (Hnil : exists ts xs ys : list number,
             (time r = time r ++ ts)%list /\ (int_temp r = int_temp r ++ xs)%list /\
             (ext_temp r = ext_temp r ++ ys)%list /\
             List.length ts = List.length xs /\
             List.length xs = List.length ys).
  { exists [], [], []. now rewrite !app_nil_r. }
  unfold read. destruct (_serial r) as [p|].
  2:{ intros [= <-]. exact Hnil. }
  destruct (is_open p); [|discriminate]. clear p.
  revert r Hnil. induction lines as [|line lines IH]; intros r Hnil.
  - intros [= <-]. exact Hnil.
  - cbn [read_loop]. destruct (nonempty line).
    2:{ intros [= <-]. exact Hnil. }
    unfold bind. destruct (read_line line r) as [[e|[]] r1] eqn:Hl.
    + discriminate.
    + intros Hrest.
      apply read_line_returns in Hl
        as (ts1 & xs1 & ys1 & Ht1 & Hx1 & Hy1 & L1 & L2 & _).
      apply IH in Hrest as (ts2 & xs2 & ys2 & Ht2 & Hx2 & Hy2 & L3 & L4).
      * exists (ts1 ++ ts2)%list, (xs1 ++ xs2)%list, (ys1 ++ ys2)%list.
        rewrite Ht2, Hx2, Hy2, Ht1, Hx1, Hy1, <- !app_assoc.
        rewrite !length_app. repeat split; congruence.
      * exists [], [], []. now rewrite !app_nil_r.
Qed.

End Properties.

(** ** Lines given field by field *)

Lemma lookup_app_id name g id :
  String.eqb name "id" = false ->
  lookup name (g ++ [("id", id)])%list = lookup name g.
Proof.
  intros Hn. induction g as [|[n v] g IH]; cbn [lookup app].
  - now rewrite Hn.
  - now rewrite IH.
Qed.

Lemma one_stops p s : stops p s = true -> one p s = None.
Proof.
  destruct s as [|c s]; [reflexivity|]. simpl.
  now intros ->%negb_true_iff.
Qed.

(** A last field with fewer than two digits after its full stop, and no
    digit after those, is not an [ext_temp]. *)
Lemma scan_ext_short w frac rest :
  all_chars is_digit w = true -> all_chars is_digit frac = true ->
  (String.length frac < 2)%nat -> stops is_digit rest = true ->
  scan_ext (w ++ "." ++ frac ++ rest) = None.
Proof.
  intros Hw Hf Hlen Hst. unfold scan_ext, andthen at 1.
  destruct w as [|c w].
  - reflexivity.
  - rewrite field_run; [|unfold run; now rewrite Hw|reflexivity].
    unfold andthen at 1. cbn [append lit Ascii.eqb Bool.eqb].
    unfold andthen.
    destruct frac as [|f1 [|f2 frac]]; cbn [append].
    + now rewrite one_stops.
    + simpl in Hf. rewrite andb_true_r in Hf. cbn [one]. rewrite Hf.
      now rewrite one_stops.
    + simpl in Hlen. lia.
Qed.

(** The scan of a line whose first eight fields are well-formed comes
    down to the scan of its last field. *)
Lemma scan_record_head id y mo d h mi s it tail :
  run is_digit id = true -> run is_digit y = true ->
  run is_digit mo = true -> run is_digit d = true ->
  run is_digit h = true -> run is_digit mi = true ->
  run is_digit s = true -> run is_digit_or_dot it = true ->
  scan_record (record_head id y mo d h mi s it ++ tail) =
    match scan_ext tail with
    | Some (et, _) =>
        Some [("ext_temp", et); ("int_temp", it);
              ("second", s); ("minute", mi); ("hour", h);
              ("day", d); ("month", mo); ("year", y); ("id", id)]
    | None => None
    end.
Proof.
  intros Hid Hy Hmo Hd Hh Hmi Hs Hit. unfold record_head.
  rewrite !append_assoc. cbn [append].
  rewrite scan_record_id by (assumption || reflexivity).
  unfold scan_fields.
  repeat (unfold andthen at 1; cbn [lit Ascii.eqb Bool.eqb];
          unfold andthen at 1;
          rewrite field_run by (assumption || reflexivity)).
  unfold andthen at 1. cbn [lit Ascii.eqb Bool.eqb].
  unfold andthen, yield.
  now destruct (scan_ext tail) as [[et rest]|].
Qed.

Section Fields.

Context {platform : Platform}.

Implicit Types (r : reader) (line : string) (lines : list string).

(** The groups other than the id decide what is stored. *)
Lemma store_match_id g id1 id2 :
  store_match (g ++ [("id", id1)])%list =
  store_match (g ++ [("id", id2)])%list.
Proof.
  unfold store_match, datetime_of, float_of, getitem.
  now rewrite !lookup_app_id by reflexivity.
Qed.

(** C9. The id of a record is matched and never used: two lines that
    start with different ids (non-empty runs of digits, followed by the
    same text, which does not go on with a digit) make a poll end the same
    way and leave the same reader, whatever the lines after them. *)
Theorem read_ignores_id id1 id2 rest lines r :
  run is_digit id1 = true -> run is_digit id2 = true ->
  stops is_digit rest = true ->
  read ((id1 ++ rest) :: lines) r = read ((id2 ++ rest) :: lines) r.
Proof.
  intros H1 H2 Hst. unfold read.
  destruct (_serial r) as [p|]; [|reflexivity].
  destruct (is_open p); [|reflexivity].
  cbn [read_loop].
  rewrite !nonempty_append by (eapply run_nonempty; eassumption).
  unfold bind, read_line.
  rewrite !scan_record_correct, !scan_record_id by assumption.
  destruct (scan_fields rest) as [[g tail]|]; [|reflexivity].
  now rewrite (store_match_id g id1 id2).
Qed.

(** C5, as the code has it. The text stored as external temperature is
    always digits, a full stop and exactly two digits; and a line whose
    last field has fewer than two digits after its full stop (and whose
    other fields are well-formed) is not matched, so that a poll of it on
    an open connection returns and leaves the reader as it was. *)
Theorem ext_temp_two_decimals :
  (forall line g,
     re_match regex line = Some g ->
     exists w d1 d2,
       lookup "ext_temp" g = Some (ext_text w d1 d2) /\
       run is_digit w = true /\ is_digit d1 = true /\ is_digit d2 = true)
  /\
  (forall id y mo d h mi s it w frac rest r,
     run is_digit id = true -> run is_digit y = true ->
     run is_digit mo = true -> run is_digit d = true ->
     run is_digit h = true -> run is_digit mi = true ->
     run is_digit s = true -> run is_digit_or_dot it = true ->
     all_chars is_digit w = true -> all_chars is_digit frac = true ->
     (String.length frac < 2)%nat -> stops is_digit rest = true ->
     connected r = true ->
     let line := record_head id y mo d h mi s it ++ w ++ "." ++ frac ++ rest in
     re_match regex line = None /\ read [line] r = (inr tt, r)).
Proof.
  split.
  - intros line g Hm. apply re_match_groups in Hm.
    destruct Hm as (id & y & mo & d & h & mi & s & it & w & d1 & d2
                    & -> & H).
    destruct H as (_ & _ & _ & _ & _ & _ & _ & _ & Hw & H1 & H2).
    exists w, d1, d2. auto.
  - intros id y mo d h mi s it w frac rest r
      Hid Hy Hmo Hd Hh Hmi Hs Hit Hw Hf Hlen Hst Hc line.
    assert (Hnone : re_match regex line = None).
    { subst line. rewrite scan_record_correct.
      rewrite scan_record_head by assumption.
      now rewrite scan_ext_short. }
    split; [exact Hnone|].
    apply read_unmatched; [assumption|]. now constructor.
Qed.

End Fields.

(** ** The connection *)

Section Connection.

Context {platform : Platform}.

Implicit Types (r : reader) (p : port) (lines : list string).

Lemma close_none r : _serial r = None -> close r = (inr tt, r).
Proof. unfold close. now intros ->. Qed.

Lemma close_open r p :
  _serial r = Some p -> is_open p = true ->
  close r = (inr tt, mkreader (Some (Serial.close p)) [] [] []).
Proof.
  intros Hs Ho. unfold close, bind, eval, reset_data, set_serial, flush.
  now rewrite Hs, Ho.
Qed.

(** Once closed, the port object is still what [_serial] holds: the
    next [close] resets the data and fails in [flush]. *)
Lemma close_stale r p :
  _serial r = Some p -> is_open p = false ->
  close r = (inl SerialException, mkreader (Some p) [] [] []).
Proof.
  intros Hs Ho. unfold close, bind, eval, reset_data, set_serial, flush.
  now rewrite Hs, Ho.
Qed.

Lemma read_none lines r : _serial r = None -> read lines r = (inr tt, r).
Proof. unfold read. now intros ->. Qed.

Lemma read_stale lines r p :
  _serial r = Some p -> is_open p = false ->
  read lines r = (inl SerialException, r).
Proof. unfold read, raise. now intros -> ->. Qed.

Lemma read_serial lines r : _serial (snd (read lines r)) = _serial r.
Proof.
  unfold read. destruct (_serial r) as [p|] eqn:Hs; [|exact Hs].
  destruct (is_open p); [|exact Hs]. now rewrite read_loop_serial.
Qed.

(** What [open] does, case by case on the reader it is called on. *)
Lemma open_eq name baud_rate r :
  open name baud_rate r =
    match _serial r with
    | None =>
        match connect name baud_rate with
        | Some e => (inl e, r)
        | None =>
            (inr tt, mkreader (Some (mkport name baud_rate true))
                       (time r) (int_temp r) (ext_temp r))
        end
    | Some p =>
        if is_open p then
          match connect name baud_rate with
          | Some e => (inl e, mkreader (Some (Serial.close p)) [] [] [])
          | None =>
              (inr tt, mkreader (Some (mkport name baud_rate true)) [] [] [])
          end
        else (inl SerialException, mkreader (Some p) [] [] [])
    end.
Proof.
  unfold open, bind at 1.
  destruct (_serial r) as [p|] eqn:Hs.
  - destruct (is_open p) eqn:Ho.
    + rewrite (close_open r p Hs Ho). unfold bind, eval, new_Serial.
      now destruct (connect name baud_rate).
    + now rewrite (close_stale r p Hs Ho).
  - rewrite (close_none r Hs). unfold bind, eval, new_Serial.
    now destruct (connect name baud_rate).
Qed.

(** A reader that holds no port object holds no data either. *)
Lemma reachable_none_empty r :
  reachable r -> _serial r = None ->
  time r = [] /\ int_temp r = [] /\ ext_temp r = [].
Proof.
  induction 1 as [|r Hr IH|r name baud_rate Hr IH|r Hr IH|r lines Hr IH].
  - auto.
  - auto.
  - rewrite open_eq. destruct (_serial r) as [p|] eqn:Hs.
    + destruct (is_open p); [destruct (connect name baud_rate)|];
        discriminate.
    + destruct (connect name baud_rate); cbn [snd].
      * intros _. now apply IH.
      * discriminate.
  - destruct (_serial r) as [p|] eqn:Hs.
    + destruct (is_open p) eqn:Ho.
      * rewrite (close_open r p Hs Ho). discriminate.
      * rewrite (close_stale r p Hs Ho). discriminate.
    + rewrite (close_none r Hs). intros _. now apply IH.
  - rewrite read_serial. intros Hs. rewrite (read_none lines r Hs).
    now apply IH.
Qed.

(** C8. On a reader whose connection is open, [open] starts with a
    complete [close]: the data is reset and the port is closed, and only
    then is the new port constructed, on the reader that [close] left,
    whether the construction succeeds or raises. *)
Theorem open_closes_first name baud_rate r p :
  _serial r = Some p -> is_open p = true ->
  let r1 := mkreader (Some (Serial.close p)) [] [] [] in
  close r = (inr tt, r1) /\
  is_open (Serial.close p) = false /\
  open name baud_rate r =
    match connect name baud_rate with
    | Some e => (inl e, r1)
    | None => (inr tt, mkreader (Some (mkport name baud_rate true)) [] [] [])
    end.
Proof.
  intros Hs Ho r1. split; [|split].
  - now apply close_open.
  - reflexivity.
  - now rewrite open_eq, Hs, Ho.
Qed.

(** C10. A call of [open] that raises, on any reader the program can
    have, leaves the three sequences empty. *)
Theorem open_failure_leaves_empty name baud_rate r e r' :
  reachable r ->
  open name baud_rate r = (inl e, r') ->
  time r' = [] /\ int_temp r' = [] /\ ext_temp r' = [].
Proof.
  intros Hr. rewrite open_eq. destruct (_serial r) as [p|] eqn:Hs.
  - destruct (is_open p).
    + destruct (connect name baud_rate); [|discriminate].
      intros [= _ <-]. auto.
    + intros [= _ <-]. auto.
  - destruct (connect name baud_rate); [|discriminate].
    intros [= _ <-]. now apply reachable_none_empty.
Qed.

End Connection.

(** ** Lines of the grammar, and lines that begin with a record *)

Lemma lit_some c s u rest : lit c s = Some (u, rest) -> s = String c rest.
Proof.
  destruct s as [|c' s']; [discriminate|]. simpl.
  destruct (Ascii.eqb_spec c c') as [->|]; [|discriminate].
  now intros [= _ <-].
Qed.

Lemma scan_ext_text w d1 d2 rest :
  run is_digit w = true -> is_digit d1 = true -> is_digit d2 = true ->
  scan_ext (ext_text w d1 d2 ++ rest) = Some (ext_text w d1 d2, rest).
Proof.
  intros Hw H1 H2. unfold scan_ext, ext_text, andthen at 1.
  rewrite append_assoc. cbn [append].
  rewrite field_run by (assumption || reflexivity).
  unfold andthen, yield. cbn [lit Ascii.eqb Bool.eqb one].
  rewrite H1. cbn [one]. now rewrite H2.
Qed.

Ltac invert_line :=
  repeat match goal with
         | H : andthen _ _ _ = Some _ |- _ =>
             let E := fresh "E" in
             apply andthen_some in H; destruct H as (? & ? & E & H);
             cbv beta in H
         | H : yield _ _ = Some _ |- _ =>
             unfold yield in H; injection H as H ?; subst
         | E : field _ _ = Some _ |- _ =>
             apply field_some in E; destruct E as (? & _ & ?)
         | E : one _ _ = Some _ |- _ =>
             apply one_some in E; destruct E as (? & ?)
         | E : lit _ _ = Some _ |- _ => apply lit_some in E
         end.

Lemma days_in_month_le y m : days_in_month y m <= 31.
Proof.
  unfold days_in_month.
  destruct (m =? 2); [destruct (is_leap y); lia|].
  destruct (_ || _); lia.
Qed.

Lemma in_range_new_datetime t :
  in_range t = true ->
  new_datetime (year t) (month t) (day t) (hour t) (minute t) (second t)
  = inr t.
Proof.
  destruct t as [y m d h mi s]. unfold in_range, new_datetime. cbn [year month day hour minute second].
  intros H. rewrite H.
  apply andb_prop in H as [Hd Ht].
  unfold valid_date, MINYEAR, MAXYEAR in Hd. unfold valid_time in Ht.
  pose proof (days_in_month_le y m).
  repeat (apply andb_prop in Hd as [Hd ?]).
  repeat (apply andb_prop in Ht as [Ht ?]).
  replace (existsb _ _) with false; [reflexivity|].
  symmetry. unfold INT_MAX. cbn [existsb].
  repeat (apply orb_false_intro); try reflexivity; apply Z.ltb_ge; lia.
Qed.

Lemma all_chars_append p a b :
  all_chars p (a ++ b) = all_chars p a && all_chars p b.
Proof.
  induction a as [|c a IH]; simpl; [reflexivity|].
  now rewrite IH, andb_assoc.
Qed.

Lemma all_digits_or_dots a :
  all_chars is_digit a = true -> all_chars is_digit_or_dot a = true.
Proof.
  induction a as [|c a IH]; simpl; [reflexivity|].
  intros [Hc Ha]%andb_prop. unfold is_digit_or_dot at 1.
  now rewrite Hc, IH.
Qed.

Lemma append_empty a : a ++ EmptyString = a.
Proof. induction a as [|c a IH]; simpl; [reflexivity|]. now rewrite IH. Qed.

Lemma decimal_value_digits a :
  run is_digit a = true -> decimal_value a = Some (decimal a EmptyString).
Proof.
  intros [Hne Hall]%andb_prop. unfold decimal_value, decimal.
  rewrite <- (append_empty a) at 1.
  rewrite span_run by (assumption || reflexivity).
  rewrite Hne, append_empty. reflexivity.
Qed.

Lemma decimal_value_point a b :
  run is_digit a = true -> all_chars is_digit b = true ->
  decimal_value (a ++ String "." b) = Some (decimal a b).
Proof.
  intros [Hne Hall]%andb_prop Hb. unfold decimal_value, decimal.
  rewrite span_run by (assumption || reflexivity).
  cbn [Ascii.eqb Bool.eqb andb].
  now rewrite Hb, nonempty_append.
Qed.

(** The internal temperature of the grammar is a text the pattern takes
    for that field, and one that [float] reads. *)
Lemma scan_fraction_text a b s1 s3 :
  run is_digit a = true ->
  scan_fraction s1 = Some (b, String "," s3) ->
  exists it,
    a ++ s1 = it ++ String "," s3
    /\ run is_digit_or_dot it = true
    /\ decimal_value it = Some (decimal a b).
Proof.
  intros Ha. pose proof Ha as [Hne Hall]%andb_prop.
  destruct s1 as [|c s']; [discriminate|]. cbn [scan_fraction].
  destruct (Ascii.eqb_spec c ".") as [->|Hc].
  - intros H. pose proof (span_append is_digit s') as Happ.
    pose proof (span_all is_digit s') as Hb.
    injection H as H. rewrite H in Happ, Hb. cbn [fst snd] in Happ, Hb.
    exists (a ++ String "." b). split; [|split].
    + rewrite <- Happ, append_assoc. reflexivity.
    + unfold run. rewrite nonempty_append by assumption.
      rewrite all_chars_append, all_digits_or_dots by assumption.
      cbn. now apply all_digits_or_dots.
    + now apply decimal_value_point.
  - intros [= <- -> ->]. exists a. split; [reflexivity|]. split.
    + unfold run. now rewrite Hne, all_digits_or_dots.
    + now apply decimal_value_digits.
Qed.

(** What a line of the grammar is made of, and the sample it denotes. *)
Lemma scan_sample_fields line smp rest :
  scan_sample line = Some (smp, rest) ->
  exists id y mo d h mi s a b it w d1 d2,
    run is_digit id = true /\ run is_digit y = true
    /\ run is_digit mo = true /\ run is_digit d = true
    /\ run is_digit h = true /\ run is_digit mi = true
    /\ run is_digit s = true /\ run is_digit_or_dot it = true
    /\ run is_digit w = true /\ is_digit d1 = true /\ is_digit d2 = true
    /\ decimal_value it = Some (decimal a b)
    /\ line = record_head id y mo d h mi s it ++ ext_text w d1 d2 ++ rest
    /\ smp = mksample
               (mkdatetime (digits_value 0 y) (digits_value 0 mo)
                  (digits_value 0 d) (digits_value 0 h) (digits_value 0 mi)
                  (digits_value 0 s))
               (decimal a b)
               (decimal w (String d1 (String d2 EmptyString))).
Proof.
  unfold scan_sample. intros H. invert_line.
  match goal with
  | Hl : line = ?id ++ _,
    Ha : run is_digit ?a = true, Hs : _ = ?a ++ ?s1,
    E : scan_fraction ?s1 = Some (?b, ?s2), E' : ?s2 = String _ ?s3 |- _ =>
      rewrite E' in E;
      destruct (scan_fraction_text a b s1 s3 Ha E) as (it & Hit & Hrun & Hval);
      rewrite Hit in Hs; clear E E' Hit;
      exists id; do 8 eexists; exists it; do 3 eexists
  end.
  subst. repeat split; try eassumption.
  unfold record_head, ext_text. rewrite !append_assoc. reflexivity.
Qed.


Lemma scan_sample_begins line smp rest :
  scan_sample line = Some (smp, rest) -> begins_with_record line.
Proof.
  intros H. apply scan_sample_fields in H
    as (id & y & mo & d & h & mi & s & a & b & it & w & d1 & d2 & H).
  exists id, y, mo, d, h, mi, s, it, w, d1, d2, rest. tauto.
Qed.

(** The grammar is within what the pattern accepts. *)
Lemma record_grammar_begins line :
  record_grammar line = true -> begins_with_record line.
Proof.
  unfold record_grammar.
  destruct (scan_sample line) as [[smp rest]|] eqn:E; [|discriminate].
  intros _. eapply scan_sample_begins; eassumption.
Qed.



Lemma begins_re_match line :
  begins_with_record line -> exists g, re_match regex line = Some g.
Proof.
  intros (id & y & mo & d & h & mi & s & it & w & d1 & d2 & rest & H).
  destruct H as (Hid & Hy & Hmo & Hd & Hh & Hmi & Hs & Hit & Hw & H1
                 & H2 & ->).
  rewrite scan_record_correct, scan_record_head by assumption.
  rewrite scan_ext_text by assumption. eauto.
Qed.

Section Records.

Context {platform : Platform}.

Implicit Types (r : reader) (line : string) (lines : list string).

(** On a valid line the pattern matches, the constructor returns the
    timestamp of the line, and [float] reads the two temperatures the
    line writes. *)
Lemma parse_record_match line smp :
  parse_record line = Some smp ->
  exists g,
    re_match regex line = Some g
    /\ datetime_of g = inr (timestamp smp)
    /\ float_of g "int_temp" = inr (to_float (internal smp))
    /\ float_of g "ext_temp" = inr (to_float (external smp)).
Proof.
  unfold parse_record.
  destruct (scan_sample line) as [[smp' rest]|] eqn:E; [|discriminate].
  destruct (line_end rest && in_range (timestamp smp')) eqn:Hok;
    [|discriminate].
  intros [= ->]. apply andb_prop in Hok as [_ Hrange].
  apply scan_sample_fields in E
    as (id & y & mo & d & h & mi & s & a & b & it & w & d1 & d2 & H).
  destruct H as (Hid & Hy & Hmo & Hd & Hh & Hmi & Hs & Hit & Hw & H1
                 & H2 & Hval & -> & ->).
  eexists. split; [|split; [|split]].
  - rewrite scan_record_correct, scan_record_head by assumption.
    rewrite scan_ext_text by assumption. reflexivity.
  - unfold datetime_of, getitem.
    cbn [lookup String.eqb Ascii.eqb Bool.eqb].
    rewrite !int_run by assumption.
    exact (in_range_new_datetime _ Hrange).
  - unfold float_of, getitem, float.
    cbn [lookup String.eqb Ascii.eqb Bool.eqb internal].
    now rewrite Hval.
  - unfold float_of, getitem, float.
    cbn [lookup String.eqb Ascii.eqb Bool.eqb external].
    rewrite decimal_value_ext by assumption. reflexivity.
Qed.

Lemma read_line_record line smp r :
  parse_record line = Some smp ->
  read_line line r =
    (inr tt,
     mkreader (_serial r) (time r ++ [date2num (timestamp smp)])
       (int_temp r ++ [to_float (internal smp)])
       (ext_temp r ++ [to_float (external smp)])).
Proof.
  intros H. apply parse_record_match in H as (g & Hm & Hd & Hx & Hy).
  rewrite (read_line_matched _ _ _ Hm), store_match_eq.
  now rewrite Hd, Hx, Hy.
Qed.

Lemma parse_record_nonempty line smp :
  parse_record line = Some smp -> nonempty line = true.
Proof.
  intros H. apply parse_record_match in H as (g & Hm & _).
  eapply re_match_nonempty; eassumption.
Qed.

(** C4. Valid lines are stored. On an open connection, a poll that reads
    lines matching the record grammar of the specification, each with
    calendar fields in range, returns without an error and appends one
    sample per line, in the order of the lines and after what was stored:
    the number of the line's timestamp, and the floats of the internal and
    external temperatures the line writes. Each sequence grows by one
    element per line, and what was stored keeps its values and its
    order. *)
Theorem read_stores_records lines smps r :
  connected r = true ->
  Forall2 (fun line smp => parse_record line = Some smp) lines smps ->
  read lines r =
    (inr tt,
     mkreader (_serial r)
       (time r ++ map (fun smp => date2num (timestamp smp)) smps)
       (int_temp r ++ map (fun smp => to_float (internal smp)) smps)
       (ext_temp r ++ map (fun smp => to_float (external smp)) smps)).
Proof.
  intros Hc Hall. rewrite read_connected by assumption. clear Hc.
  revert r. induction Hall as [|line smp lines smps Hline _ IH]; intros r.
  - cbn. rewrite !app_nil_r. now destruct r.
  - rewrite read_loop_cons by (eapply parse_record_nonempty; eassumption).
    rewrite (read_line_record _ _ _ Hline), IH.
    cbn [_serial time int_temp ext_temp map].
    now rewrite <- !app_assoc.
Qed.



Lemma app_one_neq {A} (l : list A) x : (l ++ [x])%list <> l.
Proof.
  intros H. apply (f_equal (@List.length A)) in H.
  rewrite length_app in H. cbn in H. lia.
Qed.

(** A line that begins with a record is never dropped in silence: it
    adds a time, or the poll raises. *)
Lemma read_keeps_record line r :
  connected r = true -> begins_with_record line ->
  read [line] r <> (inr tt, r).
Proof.
  intros Hc Hb. rewrite read_connected by assumption.
  destruct (begins_re_match _ Hb) as [g Hm].
  rewrite read_loop_cons by (eapply re_match_nonempty; eassumption).
  rewrite (read_line_matched _ _ _ Hm), store_match_eq.
  destruct (datetime_of g) as [e|date]; [discriminate|]. cbn zeta.
  destruct (float_of g "int_temp") as [e|x]; [discriminate|].
  destruct (float_of g "ext_temp") as [e|y]; [discriminate|].
  cbn [read_loop ret]. intros [= H]. apply (f_equal time) in H.
  cbn [time] in H. exact (app_one_neq _ _ H).
Qed.

End Records.

(** ** The program on concrete lines *)

(** C1. Appends are not all-or-nothing: on a line whose internal
    temperature is "1.2.3" the pattern matches and the date exists, the
    time is appended, and [float] then raises; the poll ends with a
    [ValueError] and with one time for no temperature. *)
Theorem two_dots_break_alignment :
  Exact.read [Exact.line_two_dots] Exact.fresh =
    (inl ValueError,
     Exact.mkreader (Some (mkport "COM3" 115200 true)) [737425 # 1]%Q [] [])
  /\ lengths (snd (Exact.read [Exact.line_two_dots] Exact.fresh))
     = (1, 0, 0)%nat.
Proof. split; reflexivity. Qed.

(** Outside the grammar, a line that the pattern matches and whose date
    exists does not always add a sample: with "." as internal temperature
    only the time is stored, and the poll raises [ValueError]. *)
Lemma lone_dot_adds_no_sample :
  (exists g date,
     re_match regex Exact.line_lone_dot = Some g /\
     datetime_of g = inr date)
  /\ fst (Exact.read [Exact.line_lone_dot] Exact.fresh) = inl ValueError
  /\ lengths (snd (Exact.read [Exact.line_lone_dot] Exact.fresh))
     = (1, 0, 0)%nat.
Proof.
  split; [|split; reflexivity].
  eexists _, _. split; reflexivity.
Qed.

(** The two records of the specification's example, read by one poll or
    by two, give two samples with the readings 20 and 20.5 on both
    sensors. *)
Lemma two_records_example :
  let r := snd (Exact.read [Exact.line_first; Exact.line_second] Exact.fresh) in
  Exact.read [Exact.line_first; Exact.line_second] Exact.fresh = (inr tt, r)
  /\ Exact.read [Exact.line_second] Exact.loaded = (inr tt, r)
  /\ lengths r = (2, 2, 2)%nat
  /\ int_temp r = [20 # 1; 41 # 2]%Q
  /\ ext_temp r = [20 # 1; 41 # 2]%Q.
Proof. repeat split; reflexivity. Qed.

(** C6. A second [close()] is not safe: the first one returns and
    closes the port, the second one raises [SerialException]. *)
Theorem close_twice_raises :
  Exact.close Exact.fresh = (inr tt, Exact.closed)
  /\ Exact.close Exact.closed = (inl SerialException, Exact.closed)
  /\ _serial Exact.closed = Some (mkport "COM3" 115200 false).
Proof. repeat split; reflexivity. Qed.

(** C7. After [close()] the sequences are empty, but a poll is not a
    no-op: it raises [SerialException], with or without lines to read. *)
Theorem read_after_close_raises :
  lengths Exact.closed = (0, 0, 0)%nat
  /\ Exact.read [] Exact.closed = (inl SerialException, Exact.closed)
  /\ Exact.read [Exact.line_first] Exact.closed
     = (inl SerialException, Exact.closed).
Proof. repeat split; reflexivity. Qed.

(** C3, as stated, fails: the line with month 13 is not skipped, the
    poll raises [ValueError]; the record after it is not stored. *)
Lemma month13_is_raised :
  Exact.read [Exact.line_month13; Exact.line_second] Exact.fresh
    = (inl ValueError, Exact.fresh)
  /\ fst (Exact.read [Exact.line_month13] Exact.fresh) <> inr tt.
Proof. split; [reflexivity|discriminate]. Qed.

(** C5, as stated, fails: a last field with three digits after the full
    stop is accepted, and a sample is stored. *)
Lemma three_decimals_accepted :
  Exact.read [Exact.line_three_decimals] Exact.fresh
    = (inr tt,
       Exact.mkreader (Some (mkport "COM3" 115200 true))
         [737425 # 1]%Q [20 # 1]%Q [41 # 2]%Q)
  /\ lengths (snd (Exact.read [Exact.line_three_decimals] Exact.fresh))
     <> lengths Exact.fresh.
Proof. split; [reflexivity|discriminate]. Qed.


(** ** The theorems at concrete inputs *)


Lemma read_stores_records_witness :
  connected Exact.fresh = true
  /\ Forall2 (fun line smp => parse_record line = Some smp)
       [Exact.line_first; Exact.line_second]
       [mksample (mkdatetime 2020 1 1 0 0 0) (20 # 1) (20 # 1);
        mksample (mkdatetime 2020 1 1 0 0 1) (41 # 2) (41 # 2)]
  /\ Exact.read [Exact.line_first; Exact.line_second] Exact.fresh
     = (inr tt,
        Exact.mkreader (Some (mkport "COM3" 115200 true))
          [737425 # 1; 63713520001 # 86400]%Q
          [20 # 1; 41 # 2]%Q [20 # 1; 41 # 2]%Q).
Proof.
  assert (Hc : connected Exact.fresh = true) by reflexivity.
  assert (Hl : Forall2 (fun line smp => parse_record line = Some smp)
                 [Exact.line_first; Exact.line_second]
                 [mksample (mkdatetime 2020 1 1 0 0 0) (20 # 1) (20 # 1);
                  mksample (mkdatetime 2020 1 1 0 0 1) (41 # 2) (41 # 2)]).
  { repeat constructor. }
  split; [exact Hc|]. split; [exact Hl|].
  exact (@read_stores_records Exact.platform _ _ _ Hc Hl).
Defined.

Lemma read_invalid_date_raises_witness :
  connected Exact.fresh = true
  /\ re_match regex Exact.line_month13 = Some Exact.groups_month13
  /\ datetime_of Exact.groups_month13 = inl ValueError
  /\ (ValueError = ValueError \/ ValueError = OverflowError)
  /\ Exact.read [Exact.line_month13; Exact.line_second] Exact.fresh
     = (inl ValueError, Exact.fresh).
Proof.
  assert (Hc : connected Exact.fresh = true) by reflexivity.
  assert (Hm : re_match regex Exact.line_month13
               = Some Exact.groups_month13) by reflexivity.
  assert (Hd : datetime_of Exact.groups_month13 = inl ValueError)
    by reflexivity.
  split; [exact Hc|]. split; [exact Hm|]. split; [exact Hd|].
  exact (@read_invalid_date_raises Exact.platform _ [Exact.line_second]
           _ _ _ Hc Hm Hd).
Defined.

Lemma ext_temp_two_decimals_witness :
  let line := record_head "1" "2020" "01" "01" "00" "00" "00" "20.0"
              ++ "20" ++ "." ++ "5" ++ LF in
  re_match regex line = None
  /\ Exact.read [line] Exact.fresh = (inr tt, Exact.fresh).
Proof.
  apply (proj2 (@ext_temp_two_decimals Exact.platform));
    try reflexivity.
  simpl. lia.
Defined.

Lemma open_closes_first_witness :
  _serial Exact.loaded = Some (mkport "COM3" 115200 true)
  /\ is_open (mkport "COM3" 115200 true) = true
  /\ Exact.close Exact.loaded = (inr tt, Exact.closed)
  /\ is_open (Serial.close (mkport "COM3" 115200 true)) = false
  /\ Exact.open "COM4" 9600 Exact.loaded
     = (inr tt, Exact.mkreader (Some (mkport "COM4" 9600 true)) [] [] []).
Proof.
  assert (Hs : _serial Exact.loaded = Some (mkport "COM3" 115200 true))
    by reflexivity.
  assert (Ho : is_open (mkport "COM3" 115200 true) = true) by reflexivity.
  split; [exact Hs|]. split; [exact Ho|].
  exact (@open_closes_first Exact.platform "COM4" 9600 _ _ Hs Ho).
Defined.

Lemma read_ignores_id_witness :
  run is_digit "1" = true /\ run is_digit "9042" = true
  /\ stops is_digit (",2020-01-01,00:00:00,20.0,20.00" ++ LF) = true
  /\ Exact.read [("1" ++ ",2020-01-01,00:00:00,20.0,20.00" ++ LF)%string]
       Exact.fresh
     = Exact.read [("9042" ++ ",2020-01-01,00:00:00,20.0,20.00" ++ LF)%string]
         Exact.fresh.
Proof.
  assert (H1 : run is_digit "1" = true) by reflexivity.
  assert (H2 : run is_digit "9042" = true) by reflexivity.
  assert (H3 : stops is_digit (",2020-01-01,00:00:00,20.0,20.00" ++ LF)
               = true) by reflexivity.
  split; [exact H1|]. split; [exact H2|]. split; [exact H3|].
  exact (@read_ignores_id Exact.platform _ _ _ [] Exact.fresh H1 H2 H3).
Defined.

Lemma open_failure_leaves_empty_witness :
  reachable Exact.loaded
  /\ Exact.open "COM4" 0 Exact.loaded = (inl ValueError, Exact.closed)
  /\ time Exact.closed = [] /\ int_temp Exact.closed = []
  /\ ext_temp Exact.closed = [].
Proof.
  assert (Hr : reachable Exact.loaded).
  { apply (@reach_read Exact.platform). apply (@reach_open Exact.platform).
    apply reach_init. }
  assert (Ho : Exact.open "COM4" 0 Exact.loaded
               = (inl ValueError, Exact.closed)) by reflexivity.
  split; [exact Hr|]. split; [exact Ho|].
  exact (@open_failure_leaves_empty Exact.platform _ _ _ _ _ Hr Ho).
Defined.

(** ** More on polls *)

Section Polls.

Context {platform : Platform}.

Implicit Types (r : reader) (line : string) (lines : list string).

(** What one line does, however its processing ends: it never touches
    the port, it appends at most one element to each sequence, and only
    the time when it raises. *)
Lemma read_line_outcome line r o r' :
  read_line line r = (o, r') ->
  exists ts xs ys,
    (time r' = time r ++ ts)%list /\ (int_temp r' = int_temp r ++ xs)%list
    /\ (ext_temp r' = ext_temp r ++ ys)%list
    /\ List.length xs = List.length ys
    /\ match o with
       | inr _ => List.length ts = List.length xs
       | inl e =>
           (e = ValueError \/ e = OverflowError)
           /\ xs = [] /\ (List.length ts <= 1)%nat
       end.
Proof.
  unfold read_line. destruct (re_match regex line) as [g|] eqn:Hm.
  - pose proof (re_match_groups _ _ Hm) as Hg.
    destruct (float_of_ext_temp g Hg) as [y Hy].
    rewrite store_match_eq, Hy.
    destruct (datetime_of g) as [e|date] eqn:Hd.
    + intros [= <- <-]. exists [], [], []. rewrite !app_nil_r.
      repeat split; auto. eapply datetime_of_error; eassumption.
    + cbn zeta. destruct (float_of g "int_temp") as [e|x] eqn:Hx.
      * intros [= <- <-]. exists [date2num date], [], []. cbn.
        rewrite !app_nil_r. repeat split; auto.
        unfold float_of in Hx.
        destruct (getitem g "int_temp") as [e'|s] eqn:Hgi.
        -- destruct Hg as (id & y0 & mo & d & h & mi & s & it & w & d1
                           & d2 & -> & _). discriminate Hgi.
        -- unfold float in Hx. destruct (decimal_value s); [discriminate|].
           injection Hx as <-. now left.
      * intros [= <- <-]. exists [date2num date], [x], [y]. cbn.
        repeat split; auto.
  - intros [= <- <-]. exists [], [], []. rewrite !app_nil_r.
    repeat split; auto.
Qed.

Lemma read_loop_outcome lines r o r' :
  read_loop lines r = (o, r') ->
  exists ts xs ys,
    (time r' = time r ++ ts)%list /\ (int_temp r' = int_temp r ++ xs)%list
    /\ (ext_temp r' = ext_temp r ++ ys)%list
    /\ List.length xs = List.length ys
    /\ match o with
       | inr _ => List.length ts = List.length xs
       | inl e =>
           (e = ValueError \/ e = OverflowError)
           /\ (List.length xs <= List.length ts <= S (List.length xs))%nat
       end.
Proof.
  revert r. induction lines as [|line lines IH]; intros r.
  - intros [= <- <-]. exists [], [], []. rewrite !app_nil_r.
    repeat split; auto.
  - cbn [read_loop]. destruct (nonempty line).
    2:{ intros [= <- <-]. exists [], [], []. rewrite !app_nil_r.
        repeat split; auto. }
    unfold bind. destruct (read_line line r) as [[e|[]] r1] eqn:Hl.
    + intros [= <- <-].
      apply read_line_outcome in Hl as (ts & xs & ys & Ht & Hx & Hy & L & Hm).
      cbn iota in Hm. destruct Hm as (He & -> & Hn).
      exists ts, [], ys. repeat split; auto. cbn. lia.
    + intros Hrest.
      apply read_line_outcome in Hl as (ts1 & xs1 & ys1 & Ht1 & Hx1 & Hy1
                                        & L1 & L2).
      apply IH in Hrest as (ts2 & xs2 & ys2 & Ht2 & Hx2 & Hy2 & L3 & L4).
      exists (ts1 ++ ts2)%list, (xs1 ++ xs2)%list, (ys1 ++ ys2)%list.
      rewrite Ht2, Hx2, Hy2, Ht1, Hx1, Hy1, <- !app_assoc, !length_app.
      repeat split; try lia.
      destruct o as [e|[]]; [|lia].
      destruct L4 as [He L4]. split; [exact He|lia].
Qed.

(** X2. Processing a line that was read raises in two places only. The
    line is then one the pattern matches, and either the [datetime]
    constructor refuses the date and time, with [ValueError] or
    [OverflowError], and the reader is as it was; or the date exists, the
    text of the internal temperature is not a number, [float] raises
    [ValueError], and the time alone has been appended. The group
    lookups, the six [int] calls and [float] of the external temperature
    never raise. *)
Theorem read_line_errors line r e r' :
  read_line line r = (inl e, r') ->
  exists g,
    re_match regex line = Some g
    /\ ((exists y mo d h mi s,
           datetime_of g = new_datetime y mo d h mi s
           /\ new_datetime y mo d h mi s = inl e
           /\ (e = ValueError \/ e = OverflowError)
           /\ r' = r)
        \/ (exists date it,
              datetime_of g = inr date
              /\ lookup "int_temp" g = Some it
              /\ decimal_value it = None
              /\ e = ValueError
              /\ r' = mkreader (_serial r) (time r ++ [date2num date])
                        (int_temp r) (ext_temp r))).
Proof.
  unfold read_line. destruct (re_match regex line) as [g|] eqn:Hm;
    [|discriminate].
  pose proof (re_match_groups _ _ Hm) as Hg.
  destruct (float_of_ext_temp g Hg) as [y Hy].
  destruct (datetime_of_groups g Hg) as (y0 & mo & d & h & mi & s & Hdt).
  rewrite store_match_eq, Hy. intros H. exists g. split; [reflexivity|].
  revert H. destruct (datetime_of g) as [e'|date] eqn:Hd.
  - intros [= <- <-]. left. exists y0, mo, d, h, mi, s.
    repeat split; auto. eapply new_datetime_error. now rewrite <- Hdt.
  - cbn zeta. unfold float_of, getitem.
    destruct Hg as (id & y1 & mo1 & d1 & h1 & mi1 & s1 & it & w & c1
                    & c2 & -> & _).
    cbn [lookup String.eqb Ascii.eqb Bool.eqb]. unfold float.
    destruct (decimal_value it) eqn:Hit; [discriminate|].
    intros [= <- <-]. right. exists date, it. repeat split; auto.
Qed.

(** X3. A poll only appends, however it ends: what was stored stays,
    in place. The two temperature sequences get the same number of new
    elements; the times get as many, or one more when the poll raises. *)
Theorem read_appends lines r o r' :
  read lines r = (o, r') ->
  exists ts xs ys,
    (time r' = time r ++ ts)%list /\ (int_temp r' = int_temp r ++ xs)%list
    /\ (ext_temp r' = ext_temp r ++ ys)%list
    /\ List.length xs = List.length ys
    /\ (List.length xs <= List.length ts <= S (List.length xs))%nat
    /\ (o = inr tt -> List.length ts = List.length xs).
Proof.
  assert (Hnil : forall r0 : reader, exists ts xs ys : list number,
             (time r0 = time r0 ++ ts)%list
             /\ (int_temp r0 = int_temp r0 ++ xs)%list
             /\ (ext_temp r0 = ext_temp r0 ++ ys)%list
             /\ List.length xs = List.length ys
             /\ (List.length xs <= List.length ts <= S (List.length xs))%nat
             /\ (o = inr tt -> List.length ts = List.length xs)).
  { intros r0. exists [], [], []. rewrite !app_nil_r. cbn.
    repeat split; auto. }
  unfold read, raise. destruct (_serial r) as [p|].
  2:{ intros [= <- <-]. apply Hnil. }
  destruct (is_open p).
  2:{ intros [= <- <-]. apply Hnil. }
  intros H. apply read_loop_outcome in H
    as (ts & xs & ys & Ht & Hx & Hy & L & Ho).
  exists ts, xs, ys. repeat split; auto.
  - destruct o as [e|[]]; lia.
  - destruct o as [e|[]]; lia.
  - intros ->. exact Ho.
Qed.

End Polls.

(** ** The lines the pattern accepts *)

(** X1. The lines the pattern accepts are exactly those that start
    with an id, a date, a time and an internal temperature in the record
    format, then digits, a full stop and two digits; whatever follows is
    ignored. The groups are these texts. *)
Theorem regex_accepts line g :
  re_match regex line = Some g <->
  exists id y mo d h mi s it w d1 d2 rest,
    run is_digit id = true /\ run is_digit y = true
    /\ run is_digit mo = true /\ run is_digit d = true
    /\ run is_digit h = true /\ run is_digit mi = true
    /\ run is_digit s = true /\ run is_digit_or_dot it = true
    /\ run is_digit w = true /\ is_digit d1 = true /\ is_digit d2 = true
    /\ line = record_head id y mo d h mi s it ++ ext_text w d1 d2 ++ rest
    /\ g = [("ext_temp", ext_text w d1 d2); ("int_temp", it);
            ("second", s); ("minute", mi); ("hour", h);
            ("day", d); ("month", mo); ("year", y); ("id", id)].
Proof.
  rewrite scan_record_correct. split.
  - unfold scan_record. intros H.
    destruct (andthen _ _ line) as [[g' rest]|] eqn:E; [|discriminate].
    injection H as <-. unfold scan_fields, scan_ext in E.
    invert_line. subst.
    repeat eexists; try eassumption.
    unfold record_head, ext_text. rewrite !append_assoc. reflexivity.
  - intros (id & y & mo & d & h & mi & s & it & w & d1 & d2 & rest & H).
    destruct H as (Hid & Hy & Hmo & Hd & Hh & Hmi & Hs & Hit & Hw & H1
                   & H2 & -> & ->).
    rewrite scan_record_head by assumption.
    now rewrite scan_ext_text.
Qed.

(** ** More on the connection *)

Section Lifecycle.

Context {platform : Platform}.

Implicit Types (r : reader) (p : port) (lines : list string).

(** X4. Whatever calls a reader has seen, its two temperature
    sequences have the same length, and the times are at least as
    many. *)
Theorem reachable_lengths r :
  reachable r ->
  List.length (int_temp r) = List.length (ext_temp r)
  /\ (List.length (int_temp r) <= List.length (time r))%nat.
Proof.
  induction 1 as [|r Hr IH|r name baud_rate Hr IH|r Hr IH|r lines Hr IH].
  - cbn. auto.
  - cbn. auto.
  - rewrite open_eq. destruct (_serial r) as [p|].
    + destruct (is_open p); [destruct (connect name baud_rate)|];
        cbn; auto.
    + destruct (connect name baud_rate); cbn; auto.
  - unfold close. destruct (_serial r) as [p|]; [|exact IH].
    unfold bind, eval, reset_data, set_serial, flush.
    destruct (is_open p); cbn; auto.
  - destruct (read lines r) as [o r'] eqn:Hread. cbn [snd].
    unfold read, raise in Hread. destruct (_serial r) as [p|].
    2:{ injection Hread as _ <-. exact IH. }
    destruct (is_open p).
    2:{ injection Hread as _ <-. exact IH. }
    apply read_loop_outcome in Hread
      as (ts & xs & ys & -> & -> & -> & L & Ho).
    rewrite !length_app. destruct o as [e|u]; lia.
Qed.

(** X6. A reader that holds a closed port stays that way: [open],
    [close] and [read] all raise [SerialException], whatever their
    arguments, and leave it holding the same closed port; [reset_data]
    does not change the port either. No call connects it again. *)
Theorem stale_forever r :
  stale r ->
  (forall name baud_rate,
     fst (open name baud_rate r) = inl SerialException
     /\ stale (snd (open name baud_rate r)))
  /\ (fst (close r) = inl SerialException /\ stale (snd (close r)))
  /\ (forall lines, read lines r = (inl SerialException, r))
  /\ stale (snd (reset_data r)).
Proof.
  intros (p & Hs & Ho). repeat split.
  - now rewrite open_eq, Hs, Ho.
  - rewrite open_eq, Hs, Ho. now exists p.
  - now rewrite (close_stale r p Hs Ho).
  - rewrite (close_stale r p Hs Ho). now exists p.
  - intros lines. now apply (read_stale lines r p).
  - now exists p.
Qed.

(** X7. A call of [open] that returns leaves a reader with no data,
    connected to a new open port of the given name and baud rate. *)
Theorem open_returns name baud_rate r r' :
  reachable r ->
  open name baud_rate r = (inr tt, r') ->
  r' = mkreader (Some (mkport name baud_rate true)) [] [] []
  /\ connected r' = true.
Proof.
  intros Hr. rewrite open_eq. destruct (_serial r) as [p|] eqn:Hs.
  - destruct (is_open p); [|discriminate].
    destruct (connect name baud_rate); [discriminate|].
    now intros [= <-].
  - destruct (connect name baud_rate); [discriminate|].
    destruct (reachable_none_empty r Hr Hs) as (-> & -> & ->).
    now intros [= <-].
Qed.

Lemma read_loop_app (a b : list string) r :
  Forall (fun line => nonempty line = true) a ->
  read_loop (a ++ b) r =
    match read_loop a r with
    | (inr _, r') => read_loop b r'
    | (inl e, r') => (inl e, r')
    end.
Proof.
  intros Ha. revert r. induction Ha as [|line a Hne _ IH]; intros r.
  - reflexivity.
  - cbn [app read_loop]. rewrite Hne. unfold bind.
    destruct (read_line line r) as [[e|[]] r1]; [reflexivity|]. apply IH.
Qed.

(** X5. Reading lines in one poll or in two comes to the same: a poll
    of [a] followed by [b] (no line of [a] empty) ends as the poll of [b]
    on what the poll of [a] left, or as the poll of [a] when that one
    raises. *)
Theorem read_app (a b : list string) r :
  Forall (fun line => nonempty line = true) a ->
  read (a ++ b) r =
    match read a r with
    | (inr _, r') => read b r'
    | (inl e, r') => (inl e, r')
    end.
Proof.
  intros Ha. unfold read at 1 2.
  destruct (_serial r) as [p|] eqn:Hs.
  - destruct (is_open p) eqn:Ho; [|reflexivity].
    rewrite read_loop_app by assumption.
    pose proof (read_loop_serial a r) as Hser.
    destruct (read_loop a r) as [[e|[]] r1]; [reflexivity|].
    cbn [snd] in Hser. unfold read. now rewrite Hser, Hs, Ho.
  - unfold ret, read. now rewrite Hs.
Qed.

End Lifecycle.

(** ** The plot window and its reader *)

Section Window.

Context {platform : Platform} {arith : Arith} {matplotlib : Canvas}.

Implicit Types (f : TempLogPlot.frame) (ev : TempLogPlot.event)
  (evs : list TempLogPlot.event) (r : reader).

(** [draw_plot] draws or raises; either way only the canvas can change. *)
Lemma draw_plot_frame f :
  (exists e, TempLogPlot.draw_plot f = (inl e, f))
  \/ exists d, TempLogPlot.draw_plot f = (inr tt, TempLogPlot.canvas_draw d f).
Proof.
  unfold TempLogPlot.draw_plot, max, min.
  destruct (TempLogPlot.time f); [left; eauto|].
  destruct (TempLogPlot.ext_temp f); [left; eauto|].
  destruct (pairable _ _); [right|left]; eauto.
Qed.

Lemma handle_reader ev f :
  TempLogPlot.serial_reader (snd (TempLogPlot.handle ev f))
  = snd (TempLogPlot.reader_step ev (TempLogPlot.serial_reader f)).
Proof.
  destruct ev as [lines| | |sp| |chosen| |]; cbn [TempLogPlot.handle
    TempLogPlot.reader_step]; try reflexivity.
  - unfold TempLogPlot.on_redraw_timer.
    destruct (read lines (TempLogPlot.serial_reader f)) as [[e|[]] r];
      [reflexivity|].
    cbn [TempLogPlot.paused TempLogPlot.set_serial_reader snd].
    destruct (TempLogPlot.paused f); [reflexivity|].
    unfold samples.
    destruct (time r);
      match goal with
      | |- context [TempLogPlot.draw_plot ?g] =>
          destruct (draw_plot_frame g) as [[? ->] | [d ->]]
      end; reflexivity.
  - unfold TempLogPlot.on_serial_port. destruct (nonempty sp); [|reflexivity].
    now destruct (open sp 115200 (TempLogPlot.serial_reader f))
      as [[e|[]] r].
  - unfold TempLogPlot.on_cb_grid.
    match goal with
    | |- context [TempLogPlot.draw_plot ?g] =>
        destruct (draw_plot_frame g) as [[? ->] | [d ->]]
    end; reflexivity.
  - now destruct chosen.
  - unfold TempLogPlot.on_exit.
    now destruct (close (TempLogPlot.serial_reader f)) as [[e|[]] r].
Qed.

Lemma handle_destroyed ev f :
  TempLogPlot.destroyed f = false ->
  TempLogPlot.destroyed (snd (TempLogPlot.handle ev f))
  = match ev, fst (TempLogPlot.reader_step ev (TempLogPlot.serial_reader f))
    with
    | TempLogPlot.Exit, inr _ => true
    | _, _ => false
    end.
Proof.
  intros Hd.
  destruct ev as [lines| | |sp| |chosen| |]; cbn [TempLogPlot.handle
    TempLogPlot.reader_step].
  - unfold TempLogPlot.on_redraw_timer.
    destruct (read lines (TempLogPlot.serial_reader f)) as [[e|[]] r];
      [exact Hd|].
    cbn [TempLogPlot.paused TempLogPlot.set_serial_reader snd].
    destruct (TempLogPlot.paused f); [exact Hd|].
    unfold samples.
    destruct (time r);
      match goal with
      | |- context [TempLogPlot.draw_plot ?g] =>
          destruct (draw_plot_frame g) as [[? ->] | [d ->]]
      end; exact Hd.
  - exact Hd.
  - exact Hd.
  - unfold TempLogPlot.on_serial_port. destruct (nonempty sp); [|exact Hd].
    destruct (open sp 115200 (TempLogPlot.serial_reader f)) as [[e|[]] r];
      exact Hd.
  - unfold TempLogPlot.on_cb_grid.
    match goal with
    | |- context [TempLogPlot.draw_plot ?g] =>
        destruct (draw_plot_frame g) as [[? ->] | [d ->]]
    end; exact Hd.
  - destruct chosen; exact Hd.
  - exact Hd.
  - unfold TempLogPlot.on_exit.
    destruct (close (TempLogPlot.serial_reader f)) as [[e|[]] r];
      [exact Hd|reflexivity].
Qed.

(** X8. The reader's history is decided by the timer, port and exit
    events alone: it is the same whether the plot is paused or not, and
    whatever pause, grid, save and flash events come in between. *)
Theorem run_reader evs f :
  TempLogPlot.destroyed f = false ->
  TempLogPlot.serial_reader (TempLogPlot.run evs f)
  = TempLogPlot.reader_run evs (TempLogPlot.serial_reader f).
Proof.
  revert f. induction evs as [|ev evs IH]; intros f Hd; [reflexivity|].
  cbn [TempLogPlot.run TempLogPlot.reader_run]. rewrite Hd.
  pose proof (handle_reader ev f) as Hr.
  pose proof (handle_destroyed ev f Hd) as Hx.
  destruct (TempLogPlot.reader_step ev (TempLogPlot.serial_reader f))
    as [o r] eqn:Hs.
  cbn [fst snd] in Hr.
  destruct ev; rewrite ?Hs in Hx; cbn [fst snd] in Hx; rewrite ?Hs;
    try (rewrite IH by exact Hx; now rewrite Hr).
  destruct o as [e|u].
  - rewrite IH by exact Hx. now rewrite Hr.
  - destruct evs as [|ev' evs']; cbn [TempLogPlot.run]; [exact Hr|].
    now rewrite Hx.
Qed.

Ltac draw_cases :=
  repeat match goal with
         | |- context [TempLogPlot.draw_plot ?g] =>
             let d := fresh "d" in
             destruct (draw_plot_frame g) as [[? ->] | [d ->]]
         end.

Ltac handle_cases ev f :=
  destruct ev as [?lines| | |?sp| |?chosen| |];
  cbn [TempLogPlot.handle];
  unfold TempLogPlot.on_redraw_timer, TempLogPlot.on_serial_port,
    TempLogPlot.on_cb_grid, TempLogPlot.on_save_plot, TempLogPlot.on_exit,
    TempLogPlot.on_pause_button, TempLogPlot.on_update_pause_button,
    TempLogPlot.on_flash_status_off, TempLogPlot.flash_status_message,
    samples;
  repeat match goal with
         | |- context [read ?l (TempLogPlot.serial_reader f)] =>
             destruct (read l (TempLogPlot.serial_reader f))
               as [[?e|[]] ?r] eqn:?Hread
         | |- context [open ?n ?b (TempLogPlot.serial_reader f)] =>
             destruct (open n b (TempLogPlot.serial_reader f))
               as [[?e|[]] ?r] eqn:?Hopen
         | |- context [close (TempLogPlot.serial_reader f)] =>
             destruct (close (TempLogPlot.serial_reader f))
               as [[?e|[]] ?r] eqn:?Hclose
         | |- context [nonempty ?sp] => destruct (nonempty sp) eqn:?Hsp
         | chosen : option string |- _ => destruct chosen
         end;
  cbn [TempLogPlot.paused TempLogPlot.set_serial_reader snd fst].

(** The data on display changes in one way only: an unpaused timer
    event whose poll returns, with at least one time in the reader. *)
Lemma handle_data ev f :
  (TempLogPlot.time (snd (TempLogPlot.handle ev f)),
   TempLogPlot.ext_temp (snd (TempLogPlot.handle ev f)))
  = match ev with
    | TempLogPlot.Timer lines =>
        match read lines (TempLogPlot.serial_reader f) with
        | (inr _, r) =>
            if TempLogPlot.paused f
            then (TempLogPlot.time f, TempLogPlot.ext_temp f)
            else match time r with
                 | [] => (TempLogPlot.time f, TempLogPlot.ext_temp f)
                 | _ :: _ => (time r, ext_temp r)
                 end
        | (inl _, _) => (TempLogPlot.time f, TempLogPlot.ext_temp f)
        end
    | _ => (TempLogPlot.time f, TempLogPlot.ext_temp f)
    end.
Proof.
  handle_cases ev f; try reflexivity.
  - destruct (TempLogPlot.paused f); [reflexivity|].
    destruct (time r); draw_cases; reflexivity.
  - draw_cases; reflexivity.
Qed.

Lemma handle_paused ev f :
  TempLogPlot.paused (snd (TempLogPlot.handle ev f))
  = if TempLogPlot.is_pause_button ev then negb (TempLogPlot.paused f)
    else TempLogPlot.paused f.
Proof.
  handle_cases ev f; try reflexivity.
  - destruct (TempLogPlot.paused f) eqn:Hp; [exact Hp|].
    destruct (time r); draw_cases; exact Hp.
  - draw_cases; reflexivity.
Qed.

Lemma handle_status ev f :
  snd (TempLogPlot.status_bar (snd (TempLogPlot.handle ev f)))
  = match ev with
    | TempLogPlot.SerialPort sp =>
        if nonempty sp then
          match fst (open sp 115200 (TempLogPlot.serial_reader f)) with
          | inr _ => sp
          | inl _ => snd (TempLogPlot.status_bar f)
          end
        else snd (TempLogPlot.status_bar f)
    | _ => snd (TempLogPlot.status_bar f)
    end.
Proof.
  handle_cases ev f; try reflexivity.
  - destruct (TempLogPlot.paused f); [reflexivity|].
    destruct (time r); draw_cases; reflexivity.
  - draw_cases; reflexivity.
Qed.

(** X9. While the plot is paused the data on display stays as it is,
    whatever events come, as long as the pause button is not pressed:
    the polls go on but nothing is copied. *)
Theorem paused_keeps_data evs f :
  TempLogPlot.paused f = true ->
  forallb (fun ev => negb (TempLogPlot.is_pause_button ev)) evs = true ->
  TempLogPlot.time (TempLogPlot.run evs f) = TempLogPlot.time f
  /\ TempLogPlot.ext_temp (TempLogPlot.run evs f) = TempLogPlot.ext_temp f
  /\ TempLogPlot.paused (TempLogPlot.run evs f) = true.
Proof.
  revert f. induction evs as [|ev evs IH]; intros f Hp Hall; [auto|].
  cbn [TempLogPlot.run forallb] in *.
  apply andb_prop in Hall as [Hev Hall].
  destruct (TempLogPlot.destroyed f); [auto|].
  pose proof (handle_data ev f) as Hdata.
  pose proof (handle_paused ev f) as Hpaused.
  apply negb_true_iff in Hev. rewrite Hev, Hp in Hpaused.
  assert (Hsame :
    (TempLogPlot.time (snd (TempLogPlot.handle ev f)),
     TempLogPlot.ext_temp (snd (TempLogPlot.handle ev f)))
    = (TempLogPlot.time f, TempLogPlot.ext_temp f)).
  { rewrite Hdata. destruct ev; try reflexivity.
    destruct (read lines (TempLogPlot.serial_reader f)) as [[e|u] r];
      [reflexivity|]. now rewrite Hp. }
  injection Hsame as Ht He.
  destruct (IH _ Hpaused Hall) as (IHt & IHe & IHp).
  rewrite IHt, IHe, IHp. auto.
Qed.


Lemma reader_step_reachable ev r :
  reachable r -> reachable (snd (TempLogPlot.reader_step ev r)).
Proof.
  intros Hr. destruct ev as [lines| | |sp| |chosen| |];
    cbn [TempLogPlot.reader_step]; try exact Hr.
  - now apply reach_read.
  - destruct (nonempty sp); [now apply reach_open|exact Hr].
  - now apply reach_close.
Qed.

Lemma reachable_ext_temp r :
  reachable r -> (List.length (ext_temp r) <= List.length (time r))%nat.
Proof.
  induction 1 as [|r Hr IH|r name baud_rate Hr IH|r Hr IH|r lines Hr IH].
  - cbn. auto.
  - cbn. auto.
  - rewrite open_eq. destruct (_serial r) as [p|].
    + destruct (is_open p); [destruct (connect name baud_rate)|];
        cbn; auto.
    + destruct (connect name baud_rate); cbn; auto.
  - unfold close. destruct (_serial r) as [p|]; [|exact IH].
    unfold bind, eval, reset_data, set_serial, flush.
    destruct (is_open p); cbn; auto.
  - destruct (read lines r) as [o r'] eqn:Hread. cbn [snd].
    unfold read, raise in Hread. destruct (_serial r) as [p|].
    2:{ injection Hread as _ <-. exact IH. }
    destruct (is_open p).
    2:{ injection Hread as _ <-. exact IH. }
    apply read_loop_outcome in Hread
      as (ts & xs & ys & -> & _ & -> & L & Ho).
    rewrite !length_app. destruct o as [e|u]; lia.
Qed.

Lemma handle_invariant ev f :
  TempLogPlot.plot_invariant f -> TempLogPlot.plot_invariant (snd (TempLogPlot.handle ev f)).
Proof.
  intros (Ht & Hl & Hr).
  pose proof (handle_data ev f) as Hdata.
  pose proof (handle_reader ev f) as Hreader.
  assert (Hr' : reachable (TempLogPlot.serial_reader
                             (snd (TempLogPlot.handle ev f)))).
  { rewrite Hreader. now apply reader_step_reachable. }
  assert (Hcases :
    (TempLogPlot.time (snd (TempLogPlot.handle ev f)),
     TempLogPlot.ext_temp (snd (TempLogPlot.handle ev f)))
    = (TempLogPlot.time f, TempLogPlot.ext_temp f)
    \/ exists r, reachable r /\ time r <> []
         /\ (TempLogPlot.time (snd (TempLogPlot.handle ev f)),
              TempLogPlot.ext_temp (snd (TempLogPlot.handle ev f)))
            = (time r, ext_temp r)).
  { rewrite Hdata. destruct ev; try (now left).
    destruct (read lines (TempLogPlot.serial_reader f)) as [[e|u] r] eqn:E;
      [now left|].
    destruct (TempLogPlot.paused f); [now left|].
    destruct (time r) as [|t ts] eqn:Et; [now left|].
    right. exists r. rewrite Et. repeat split; [|discriminate].
    replace r with (snd (read lines (TempLogPlot.serial_reader f)))
      by now rewrite E.
    now apply reach_read. }
  unfold TempLogPlot.plot_invariant.
  destruct Hcases as [Hsame | (r & Hrr & Hne & Hsame)];
    injection Hsame as -> ->; repeat split; auto.
  now apply reachable_ext_temp.
Qed.

(** X11. The plot always has a time to show, and never more
    temperatures than times: [max(self.time)] in [draw_plot] cannot fail,
    from the creation of the window on, whatever the events. *)
Theorem plot_data_invariant now evs :
  let f := TempLogPlot.run evs (TempLogPlot.new now) in
  TempLogPlot.time f <> []
  /\ (List.length (TempLogPlot.ext_temp f)
       <= List.length (TempLogPlot.time f))%nat.
Proof.
  assert (H : forall f, TempLogPlot.plot_invariant f ->
                        TempLogPlot.plot_invariant (TempLogPlot.run evs f)).
  { induction evs as [|ev evs IH]; intros f Hf; [exact Hf|].
    cbn [TempLogPlot.run]. destruct (TempLogPlot.destroyed f); [exact Hf|].
    apply IH. now apply handle_invariant. }
  cbn zeta. destruct (H (TempLogPlot.new now)) as (Ht & Hl & _).
  - repeat split; [discriminate|cbn; lia|apply reach_init].
  - auto.
Qed.

Lemma reader_step_status ev f :
  TempLogPlot.status_invariant f ->
  TempLogPlot.status_invariant (snd (TempLogPlot.handle ev f)).
Proof.
  unfold TempLogPlot.status_invariant. intros Hinv.
  rewrite handle_status, handle_reader.
  destruct ev as [lines| | |sp| |chosen| |]; cbn [TempLogPlot.reader_step];
    try exact Hinv.
  - now rewrite read_serial.
  - destruct (nonempty sp); [|exact Hinv]. rewrite open_eq.
    revert Hinv.
    destruct (_serial (TempLogPlot.serial_reader f)) as [p|] eqn:Hs;
      intros Hinv.
    + destruct (is_open p); [destruct (connect sp 115200)|]; cbn; auto.
    + destruct (connect sp 115200); cbn; rewrite ?Hs; auto.
  - unfold close. revert Hinv.
    destruct (_serial (TempLogPlot.serial_reader f)) as [p|] eqn:Hs;
      intros Hinv.
    + unfold bind, eval, reset_data, set_serial, flush.
      destruct (is_open p); cbn; rewrite ?Hs; auto.
    + cbn. now rewrite Hs.
Qed.

(** X12. The right field of the status bar always names the port
    object the reader holds, opened at 115200 baud, and reads "Not
    connected" when it holds none; the field stays when that port has
    been closed, by a failed change of port or otherwise. *)
Theorem status_names_port now evs :
  TempLogPlot.status_invariant (TempLogPlot.run evs (TempLogPlot.new now)).
Proof.
  assert (H : forall f, TempLogPlot.status_invariant f ->
                        TempLogPlot.status_invariant (TempLogPlot.run evs f)).
  { induction evs as [|ev evs IH]; intros f Hf; [exact Hf|].
    cbn [TempLogPlot.run]. destruct (TempLogPlot.destroyed f); [exact Hf|].
    apply IH. now apply reader_step_status. }
  apply H. reflexivity.
Qed.

Lemma reader_step_stale ev r :
  stale r ->
  stale (snd (TempLogPlot.reader_step ev r))
  /\ fst (TempLogPlot.reader_step TempLogPlot.Exit r) = inl SerialException.
Proof.
  intros (p & Hs & Ho). split.
  - destruct ev as [lines| | |sp| |chosen| |]; cbn [TempLogPlot.reader_step];
      try (now exists p).
    + rewrite (read_stale lines r p Hs Ho). now exists p.
    + destruct (nonempty sp); [|now exists p].
      rewrite open_eq, Hs, Ho. now exists p.
    + rewrite (close_stale r p Hs Ho). now exists p.
  - cbn. now rewrite (close_stale r p Hs Ho).
Qed.

(** X13. Once the reader holds a closed port, the window can neither
    connect again nor be closed through Exit: whatever events follow, the
    reader still holds a closed port and the frame is not destroyed. *)
Theorem stale_window_stays evs f :
  stale (TempLogPlot.serial_reader f) ->
  TempLogPlot.destroyed f = false ->
  stale (TempLogPlot.serial_reader (TempLogPlot.run evs f))
  /\ TempLogPlot.destroyed (TempLogPlot.run evs f) = false.
Proof.
  revert f. induction evs as [|ev evs IH]; intros f Hst Hd; [auto|].
  cbn [TempLogPlot.run]. rewrite Hd. apply IH.
  - rewrite handle_reader. now apply reader_step_stale.
  - rewrite handle_destroyed by exact Hd.
    destruct ev; try reflexivity.
    now rewrite (proj2 (reader_step_stale TempLogPlot.Exit _ Hst)).
Qed.

(** X14. Exit destroys the frame exactly when the reader does not
    hold a closed port; it then leaves no open connection behind. *)
Theorem on_exit_destroys f :
  TempLogPlot.destroyed f = false ->
  (TempLogPlot.destroyed (snd (TempLogPlot.on_exit f)) = true
   <-> ~ stale (TempLogPlot.serial_reader f))
  /\ (TempLogPlot.destroyed (snd (TempLogPlot.on_exit f)) = true ->
       connected (TempLogPlot.serial_reader (snd (TempLogPlot.on_exit f)))
       = false).
Proof.
  intros Hd. unfold TempLogPlot.on_exit, stale, connected.
  destruct (_serial (TempLogPlot.serial_reader f)) as [p|] eqn:Hs.
  - destruct (is_open p) eqn:Ho.
    + rewrite (close_open _ p Hs Ho). cbn. repeat split; auto.
      intros _ (q & [= <-] & Hq). congruence.
    + rewrite (close_stale _ p Hs Ho). cbn. rewrite Hd. repeat split.
      * discriminate.
      * intros H. exfalso. apply H. eauto.
      * discriminate.
  - rewrite (close_none _ Hs). cbn. rewrite Hs. repeat split; auto.
    intros _ (q & [=] & _).
Qed.

(** X15. After a change of port the plot keeps showing what it
    showed: the new reader is empty, and the timer does not copy an empty
    reader. The old samples stay on display until the first record of the
    new port is stored. *)
Theorem port_change_keeps_plot sp lines f :
  TempLogPlot.destroyed f = false ->
  reachable (TempLogPlot.serial_reader f) ->
  nonempty sp = true ->
  fst (open sp 115200 (TempLogPlot.serial_reader f)) = inr tt ->
  Forall (fun line => re_match regex line = None) lines ->
  let f' := TempLogPlot.run
              [TempLogPlot.SerialPort sp; TempLogPlot.Timer lines] f in
  TempLogPlot.time f' = TempLogPlot.time f
  /\ TempLogPlot.ext_temp f' = TempLogPlot.ext_temp f
  /\ TempLogPlot.serial_reader f'
     = mkreader (Some (mkport sp 115200 true)) [] [] []
  /\ snd (TempLogPlot.status_bar f') = sp.
Proof.
  intros Hd Hr Hsp Hopen Hlines f'.
  destruct (open sp 115200 (TempLogPlot.serial_reader f)) as [o r1] eqn:Ho.
  cbn [fst] in Hopen. subst o.
  assert (Hr1 : r1 = mkreader (Some (mkport sp 115200 true)) [] [] []).
  { revert Ho. rewrite open_eq.
    destruct (_serial (TempLogPlot.serial_reader f)) as [p|] eqn:Hs.
    - destruct (is_open p); [|discriminate].
      destruct (connect sp 115200); [discriminate|]. now intros [= <-].
    - destruct (connect sp 115200); [discriminate|].
      destruct (reachable_none_empty _ Hr Hs) as (-> & -> & ->).
      now intros [= <-]. }
  assert (Hread : read lines r1 = (inr tt, r1)).
  { apply read_unmatched; [now rewrite Hr1|exact Hlines]. }
  set (f1 := snd (TempLogPlot.handle (TempLogPlot.SerialPort sp) f)) in *.
  assert (Hf1r : TempLogPlot.serial_reader f1 = r1).
  { unfold f1. rewrite handle_reader. cbn [TempLogPlot.reader_step].
    now rewrite Hsp, Ho. }
  assert (Hf1d : TempLogPlot.destroyed f1 = false).
  { unfold f1. now rewrite handle_destroyed. }
  assert (Hf1s : snd (TempLogPlot.status_bar f1) = sp).
  { unfold f1. now rewrite handle_status, Hsp, Ho. }
  pose proof (handle_data (TempLogPlot.SerialPort sp) f) as Hdata1.
  cbn iota in Hdata1. fold f1 in Hdata1. injection Hdata1 as Ht1 He1.
  assert (Hf' : f' = snd (TempLogPlot.handle (TempLogPlot.Timer lines) f1)).
  { unfold f'. cbn [TempLogPlot.run]. rewrite Hd. fold f1.
    now rewrite Hf1d. }
  pose proof (handle_data (TempLogPlot.Timer lines) f1) as Hdata2.
  pose proof (handle_status (TempLogPlot.Timer lines) f1) as Hstat2.
  pose proof (handle_reader (TempLogPlot.Timer lines) f1) as Hread2.
  cbn [TempLogPlot.reader_step] in Hread2.
  rewrite Hf1r, Hread in Hdata2, Hread2. cbn [snd] in Hread2.
  assert (Hempty : time r1 = []) by now rewrite Hr1.
  rewrite Hempty in Hdata2.
  assert (Hdata2' :
    (TempLogPlot.time (snd (TempLogPlot.handle (TempLogPlot.Timer lines) f1)),
     TempLogPlot.ext_temp
       (snd (TempLogPlot.handle (TempLogPlot.Timer lines) f1)))
    = (TempLogPlot.time f1, TempLogPlot.ext_temp f1)).
  { rewrite Hdata2. now destruct (TempLogPlot.paused f1). }
  injection Hdata2' as Ht2 He2.
  clearbody f' f1. subst f'. cbn [TempLogPlot.handle] in *.
  rewrite Ht2, He2, Ht1, He1, Hread2, Hstat2, Hf1s, <- Hr1. auto.
Qed.

End Window.

Section PortChange.

Context {platform : Platform} {arith : Arith}.

(** X16. A change of port that fails on a connected window raises the
    constructor's error and leaves the reader without data, holding the
    old port, now closed; the status bar and the data on display are as
    before. *)
Theorem failed_port_change sp e (f : TempLogPlot.frame) :
  connected (TempLogPlot.serial_reader f) = true ->
  nonempty sp = true ->
  connect sp 115200 = Some e ->
  let f' := snd (TempLogPlot.on_serial_port sp f) in
  fst (TempLogPlot.on_serial_port sp f) = inl e
  /\ stale (TempLogPlot.serial_reader f')
  /\ lengths (TempLogPlot.serial_reader f') = (0, 0, 0)%nat
  /\ TempLogPlot.status_bar f' = TempLogPlot.status_bar f
  /\ TempLogPlot.time f' = TempLogPlot.time f
  /\ TempLogPlot.ext_temp f' = TempLogPlot.ext_temp f.
Proof.
  unfold connected. intros Hc Hsp He.
  destruct (_serial (TempLogPlot.serial_reader f)) as [p|] eqn:Hs;
    [|discriminate].
  unfold TempLogPlot.on_serial_port. rewrite Hsp, open_eq, Hs, Hc, He.
  cbn. repeat split; auto. exists (Serial.close p). auto.
Qed.

End PortChange.

(** ** The further theorems at concrete inputs *)

Lemma read_line_errors_witness :
  @read_line Exact.platform Exact.line_two_dots Exact.fresh
  = (inl ValueError,
     Exact.mkreader (Some (mkport "COM3" 115200 true)) [737425 # 1]%Q [] [])
  /\ exists g,
      re_match regex Exact.line_two_dots = Some g
      /\ ((exists y mo d h mi s,
             datetime_of g = new_datetime y mo d h mi s
             /\ new_datetime y mo d h mi s = inl ValueError
             /\ (ValueError = ValueError \/ ValueError = OverflowError)
             /\ Exact.mkreader (Some (mkport "COM3" 115200 true))
                  [737425 # 1]%Q [] [] = Exact.fresh)
          \/ (exists date it,
                datetime_of g = inr date
                /\ lookup "int_temp" g = Some it
                /\ decimal_value it = None
                /\ ValueError = ValueError
                /\ Exact.mkreader (Some (mkport "COM3" 115200 true))
                     [737425 # 1]%Q [] []
                   = @mkreader Exact.platform (_serial Exact.fresh)
                       (time Exact.fresh ++ [@date2num Exact.platform date])
                       (int_temp Exact.fresh) (ext_temp Exact.fresh))).
Proof.
  assert (H : @read_line Exact.platform Exact.line_two_dots Exact.fresh
              = (inl ValueError,
                 Exact.mkreader (Some (mkport "COM3" 115200 true))
                   [737425 # 1]%Q [] [])) by reflexivity.
  split; [exact H|].
  exact (@read_line_errors Exact.platform _ _ _ _ H).
Defined.

Lemma read_appends_witness :
  Exact.read [Exact.line_second; Exact.line_two_dots] Exact.loaded
  = (inl ValueError,
     snd (Exact.read [Exact.line_second; Exact.line_two_dots] Exact.loaded))
  /\ exists ts xs ys,
      (time (snd (Exact.read [Exact.line_second; Exact.line_two_dots]
                    Exact.loaded)) = time Exact.loaded ++ ts)%list
      /\ (int_temp (snd (Exact.read [Exact.line_second; Exact.line_two_dots]
                           Exact.loaded)) = int_temp Exact.loaded ++ xs)%list
      /\ (ext_temp (snd (Exact.read [Exact.line_second; Exact.line_two_dots]
                           Exact.loaded)) = ext_temp Exact.loaded ++ ys)%list
      /\ List.length xs = List.length ys
      /\ (List.length xs <= List.length ts <= S (List.length xs))%nat
      /\ (@inl exn unit ValueError = inr tt
          -> List.length ts = List.length xs).
Proof.
  assert (H : Exact.read [Exact.line_second; Exact.line_two_dots] Exact.loaded
              = (inl ValueError,
                 snd (Exact.read [Exact.line_second; Exact.line_two_dots]
                        Exact.loaded))) by reflexivity.
  split; [exact H|].
  exact (@read_appends Exact.platform _ _ _ _ H).
Defined.

Lemma reachable_lengths_witness :
  reachable (snd (Exact.read [Exact.line_two_dots] Exact.loaded))
  /\ List.length (int_temp (snd (Exact.read [Exact.line_two_dots]
                                   Exact.loaded)))
     = List.length (ext_temp (snd (Exact.read [Exact.line_two_dots]
                                     Exact.loaded)))
  /\ (List.length (int_temp (snd (Exact.read [Exact.line_two_dots]
                                    Exact.loaded)))
      <= List.length (time (snd (Exact.read [Exact.line_two_dots]
                                   Exact.loaded))))%nat.
Proof.
  assert (H : reachable (snd (Exact.read [Exact.line_two_dots]
                                Exact.loaded))).
  { apply (@reach_read Exact.platform). apply (@reach_read Exact.platform).
    apply (@reach_open Exact.platform). apply reach_init. }
  split; [exact H|].
  exact (@reachable_lengths Exact.platform _ H).
Defined.

Lemma read_app_witness :
  Forall (fun line => nonempty line = true) [Exact.line_first]
  /\ Exact.read ([Exact.line_first] ++ [Exact.line_second]) Exact.fresh
     = match Exact.read [Exact.line_first] Exact.fresh with
       | (inr _, r') => Exact.read [Exact.line_second] r'
       | (inl e, r') => (inl e, r')
       end.
Proof.
  assert (H : Forall (fun line => nonempty line = true) [Exact.line_first])
    by (repeat constructor).
  split; [exact H|].
  exact (@read_app Exact.platform _ [Exact.line_second] Exact.fresh H).
Defined.

Lemma stale_forever_witness :
  stale Exact.closed
  /\ (forall name baud_rate,
        fst (Exact.open name baud_rate Exact.closed) = inl SerialException
        /\ stale (snd (Exact.open name baud_rate Exact.closed)))
  /\ (fst (Exact.close Exact.closed) = inl SerialException
      /\ stale (snd (Exact.close Exact.closed)))
  /\ (forall lines,
        Exact.read lines Exact.closed = (inl SerialException, Exact.closed))
  /\ stale (snd (@reset_data Exact.platform Exact.closed)).
Proof.
  assert (H : stale Exact.closed).
  { exists (mkport "COM3" 115200 false). split; reflexivity. }
  split; [exact H|].
  exact (@stale_forever Exact.platform _ H).
Defined.

Lemma open_returns_witness :
  reachable Exact.loaded
  /\ Exact.open "COM4" 9600 Exact.loaded
     = (inr tt, Exact.mkreader (Some (mkport "COM4" 9600 true)) [] [] [])
  /\ Exact.mkreader (Some (mkport "COM4" 9600 true)) [] [] []
     = Exact.mkreader (Some (mkport "COM4" 9600 true)) [] [] []
  /\ connected (Exact.mkreader (Some (mkport "COM4" 9600 true)) [] [] [])
     = true.
Proof.
  assert (Hr : reachable Exact.loaded).
  { apply (@reach_read Exact.platform). apply (@reach_open Exact.platform).
    apply reach_init. }
  assert (Ho : Exact.open "COM4" 9600 Exact.loaded
               = (inr tt,
                  Exact.mkreader (Some (mkport "COM4" 9600 true)) [] [] []))
    by reflexivity.
  split; [exact Hr|]. split; [exact Ho|].
  exact (@open_returns Exact.platform _ _ _ _ Hr Ho).
Defined.

Lemma run_reader_witness :
  TempLogPlot.destroyed ExactPlot.new = false
  /\ TempLogPlot.serial_reader
       (ExactPlot.run [TempLogPlot.SerialPort "COM3"; TempLogPlot.PauseButton;
                       TempLogPlot.Timer [Exact.line_first];
                       TempLogPlot.CbGrid; TempLogPlot.Exit;
                       TempLogPlot.Timer [Exact.line_second]] ExactPlot.new)
     = TempLogPlot.reader_run
         [TempLogPlot.SerialPort "COM3"; TempLogPlot.PauseButton;
          TempLogPlot.Timer [Exact.line_first];
          TempLogPlot.CbGrid; TempLogPlot.Exit;
          TempLogPlot.Timer [Exact.line_second]]
         (TempLogPlot.serial_reader ExactPlot.new).
Proof.
  assert (H : TempLogPlot.destroyed ExactPlot.new = false) by reflexivity.
  split; [exact H|].
  exact (@run_reader ExactPlot.platform ExactPlot.arith ExactPlot.matplotlib _ _ H).
Defined.

Lemma paused_keeps_data_witness :
  TempLogPlot.paused ExactPlot.frozen = true
  /\ forallb (fun ev => negb (TempLogPlot.is_pause_button ev))
       [TempLogPlot.Timer [Exact.line_first]; TempLogPlot.CbGrid;
        TempLogPlot.SerialPort "COM4"] = true
  /\ TempLogPlot.time
       (ExactPlot.run [TempLogPlot.Timer [Exact.line_first];
                       TempLogPlot.CbGrid; TempLogPlot.SerialPort "COM4"]
          ExactPlot.frozen)
     = TempLogPlot.time ExactPlot.frozen
  /\ TempLogPlot.ext_temp
       (ExactPlot.run [TempLogPlot.Timer [Exact.line_first];
                       TempLogPlot.CbGrid; TempLogPlot.SerialPort "COM4"]
          ExactPlot.frozen)
     = TempLogPlot.ext_temp ExactPlot.frozen
  /\ TempLogPlot.paused
       (ExactPlot.run [TempLogPlot.Timer [Exact.line_first];
                       TempLogPlot.CbGrid; TempLogPlot.SerialPort "COM4"]
          ExactPlot.frozen)
     = true.
Proof.
  assert (Hp : TempLogPlot.paused ExactPlot.frozen = true) by reflexivity.
  assert (Ha : forallb (fun ev => negb (TempLogPlot.is_pause_button ev))
                 [TempLogPlot.Timer [Exact.line_first]; TempLogPlot.CbGrid;
                  TempLogPlot.SerialPort "COM4"] = true) by reflexivity.
  split; [exact Hp|]. split; [exact Ha|].
  exact (@paused_keeps_data ExactPlot.platform ExactPlot.arith ExactPlot.matplotlib _ _ Hp Ha).
Defined.

(** Without as many external temperatures as times the canvas refuses
    to draw: after a line whose internal temperature is "1.2.3" the
    reader has three times for two temperatures, and the next timer event
    and a tick of the grid box raise and draw nothing. *)
Lemma mismatched_data_raise :
  let f := ExactPlot.run [TempLogPlot.Timer [Exact.line_two_dots]]
             ExactPlot.plotting in
  lengths (TempLogPlot.serial_reader f) = (3, 2, 2)%nat
  /\ fst (@TempLogPlot.handle ExactPlot.platform ExactPlot.arith
            ExactPlot.matplotlib (TempLogPlot.Timer []) f)
     = inl RuntimeError
  /\ TempLogPlot.canvas
       (ExactPlot.run [TempLogPlot.Timer []; TempLogPlot.CbGrid] f)
     = TempLogPlot.canvas f.
Proof. repeat split; reflexivity. Qed.


Lemma stale_window_stays_witness :
  stale (TempLogPlot.serial_reader ExactPlot.stuck)
  /\ TempLogPlot.destroyed ExactPlot.stuck = false
  /\ stale (TempLogPlot.serial_reader
              (ExactPlot.run [TempLogPlot.SerialPort "COM3";
                              TempLogPlot.Timer [Exact.line_first];
                              TempLogPlot.Exit] ExactPlot.stuck))
  /\ TempLogPlot.destroyed
       (ExactPlot.run [TempLogPlot.SerialPort "COM3";
                       TempLogPlot.Timer [Exact.line_first];
                       TempLogPlot.Exit] ExactPlot.stuck) = false.
Proof.
  assert (Hs : stale (TempLogPlot.serial_reader ExactPlot.stuck)).
  { exists (mkport "COM3" 115200 false). split; reflexivity. }
  assert (Hd : TempLogPlot.destroyed ExactPlot.stuck = false)
    by reflexivity.
  split; [exact Hs|]. split; [exact Hd|].
  exact (@stale_window_stays ExactPlot.platform ExactPlot.arith ExactPlot.matplotlib _ _ Hs Hd).
Defined.

Lemma on_exit_destroys_witness :
  TempLogPlot.destroyed ExactPlot.plotting = false
  /\ (TempLogPlot.destroyed
        (snd (@TempLogPlot.on_exit ExactPlot.platform ExactPlot.plotting))
      = true
      <-> ~ stale (TempLogPlot.serial_reader ExactPlot.plotting))
  /\ (TempLogPlot.destroyed
        (snd (@TempLogPlot.on_exit ExactPlot.platform ExactPlot.plotting))
      = true ->
      connected
        (TempLogPlot.serial_reader
           (snd (@TempLogPlot.on_exit ExactPlot.platform ExactPlot.plotting)))
      = false).
Proof.
  assert (Hd : TempLogPlot.destroyed ExactPlot.plotting = false)
    by reflexivity.
  split; [exact Hd|].
  exact (@on_exit_destroys ExactPlot.platform _ Hd).
Defined.

Lemma port_change_keeps_plot_witness :
  TempLogPlot.destroyed ExactPlot.plotting = false
  /\ reachable (TempLogPlot.serial_reader ExactPlot.plotting)
  /\ nonempty "COM4" = true
  /\ fst (@open ExactPlot.platform "COM4" 115200
            (TempLogPlot.serial_reader ExactPlot.plotting)) = inr tt
  /\ Forall (fun line => re_match regex line = None) [Exact.line_bad]
  /\ TempLogPlot.time
       (ExactPlot.run [TempLogPlot.SerialPort "COM4";
                       TempLogPlot.Timer [Exact.line_bad]] ExactPlot.plotting)
     = TempLogPlot.time ExactPlot.plotting
  /\ TempLogPlot.ext_temp
       (ExactPlot.run [TempLogPlot.SerialPort "COM4";
                       TempLogPlot.Timer [Exact.line_bad]] ExactPlot.plotting)
     = TempLogPlot.ext_temp ExactPlot.plotting
  /\ TempLogPlot.serial_reader
       (ExactPlot.run [TempLogPlot.SerialPort "COM4";
                       TempLogPlot.Timer [Exact.line_bad]] ExactPlot.plotting)
     = @mkreader ExactPlot.platform (Some (mkport "COM4" 115200 true))
         [] [] []
  /\ snd (TempLogPlot.status_bar
            (ExactPlot.run [TempLogPlot.SerialPort "COM4";
                            TempLogPlot.Timer [Exact.line_bad]]
               ExactPlot.plotting))
     = "COM4".
Proof.
  assert (Hd : TempLogPlot.destroyed ExactPlot.plotting = false)
    by reflexivity.
  assert (Hr : reachable (TempLogPlot.serial_reader ExactPlot.plotting)).
  { apply (@reach_read ExactPlot.platform
             (snd (@open ExactPlot.platform "COM3" 115200 init))
             [Exact.line_first; Exact.line_second]).
    apply (@reach_open ExactPlot.platform). apply reach_init. }
  assert (Hn : nonempty "COM4" = true) by reflexivity.
  assert (Ho : fst (@open ExactPlot.platform "COM4" 115200
                      (TempLogPlot.serial_reader ExactPlot.plotting))
               = inr tt) by reflexivity.
  assert (Hl : Forall (fun line => re_match regex line = None)
                 [Exact.line_bad]) by (repeat constructor).
  split; [exact Hd|]. split; [exact Hr|]. split; [exact Hn|].
  split; [exact Ho|]. split; [exact Hl|].
  exact (@port_change_keeps_plot ExactPlot.platform ExactPlot.arith ExactPlot.matplotlib
           _ _ _ Hd Hr Hn Ho Hl).
Defined.

Lemma failed_port_change_witness :
  connected (TempLogPlot.serial_reader ExactPlot.plotting) = true
  /\ nonempty "COM9" = true
  /\ @connect ExactPlot.platform "COM9" 115200 = Some SerialException
  /\ fst (@TempLogPlot.on_serial_port ExactPlot.platform "COM9"
            ExactPlot.plotting) = inl SerialException
  /\ stale (TempLogPlot.serial_reader ExactPlot.stuck)
  /\ lengths (TempLogPlot.serial_reader ExactPlot.stuck) = (0, 0, 0)%nat
  /\ TempLogPlot.status_bar ExactPlot.stuck
     = TempLogPlot.status_bar ExactPlot.plotting
  /\ TempLogPlot.time ExactPlot.stuck = TempLogPlot.time ExactPlot.plotting
  /\ TempLogPlot.ext_temp ExactPlot.stuck
     = TempLogPlot.ext_temp ExactPlot.plotting.
Proof.
  assert (Hc : connected (TempLogPlot.serial_reader ExactPlot.plotting)
               = true) by reflexivity.
  assert (Hn : nonempty "COM9" = true) by reflexivity.
  assert (He : @connect ExactPlot.platform "COM9" 115200
               = Some SerialException) by reflexivity.
  split; [exact Hc|]. split; [exact Hn|]. split; [exact He|].
  exact (@failed_port_change ExactPlot.platform _ _ ExactPlot.plotting
           Hc Hn He).
Defined.
